(** * Web page summary pipeline: fetch, extract, summarize, render

    A shallow embedding of the four stages of the article summarizer
    (src/modules/scraper.js, extractor.ts, summarizer.js, converter.js)
    together with the properties their specification states.

    JavaScript strings are sequences of UTF-16 code units; they are
    modelled as lists of [N].  Calls into the outside world (HTTP client,
    AI service, URL parser, Markdown converter, clock) are inputs of the
    model: oracles indexed by call number, or functions bound in a
    Section. *)

From Stdlib Require Import List ZArith NArith Bool Lia String Ascii Sorted.
Import ListNotations.

(* ================================================================== *)
(** ** JavaScript strings *)
(* ================================================================== *)

Module Js.

(** A string is a list of UTF-16 code units. *)
Definition jsstring := list N.

(** String literal: every character of the (ASCII) literal is its code. *)
Definition lit (s : string) : jsstring :=
  map N_of_ascii (list_ascii_of_string s).

(** [WhiteSpace] and [LineTerminator] of ECMAScript: what [trim] strips and
    what [\s] matches. *)
Definition is_space (c : N) : bool :=
  ((9 <=? c) && (c <=? 13) || (c =? 32) || (c =? 160) || (c =? 5760)
   || ((8192 <=? c) && (c <=? 8202)) || (c =? 8232) || (c =? 8233)
   || (c =? 8239) || (c =? 8287) || (c =? 12288) || (c =? 65279))%N.

(** [\d] *)
Definition is_digit (c : N) : bool := ((48 <=? c) && (c <=? 57))%N.

Fixpoint dropWhile (p : N -> bool) (s : jsstring) : jsstring :=
  match s with
  | [] => []
  | c :: s' => if p c then dropWhile p s' else s
  end.

Definition trimStart (s : jsstring) : jsstring := dropWhile is_space s.
Definition trimEnd (s : jsstring) : jsstring := rev (dropWhile is_space (rev s)).

(** [s.trim()] *)
Definition trim (s : jsstring) : jsstring := trimEnd (trimStart s).

(** [s.startsWith(p)] *)
Fixpoint startsWith (p s : jsstring) : bool :=
  match p, s with
  | [], _ => true
  | _ :: _, [] => false
  | a :: p', b :: s' => (a =? b)%N && startsWith p' s'
  end.

(** [s.includes(p)] *)
Fixpoint includes (p s : jsstring) : bool :=
  startsWith p s ||
  match s with
  | [] => false
  | _ :: s' => includes p s'
  end.

(** String equality [a === b]. *)
Fixpoint eqb (a b : jsstring) : bool :=
  match a, b with
  | [], [] => true
  | x :: a', y :: b' => (x =? y)%N && eqb a' b'
  | _, _ => false
  end.

(** A string is truthy exactly when it is not empty. *)
Definition nonempty (s : jsstring) : bool :=
  match s with [] => false | _ :: _ => true end.

(** [s.split(/c+/)] for a character class [c]: the pieces between the
    maximal runs of separator characters.  A leading or trailing run leaves
    an empty first or last piece, and the empty string splits into one
    empty piece.  [in_run] tells that the previous character was a
    separator, [cur] is the piece being read, reversed. *)
Fixpoint split_go (sep : N -> bool) (in_run : bool) (cur : jsstring)
    (s : jsstring) : list jsstring :=
  match s with
  | [] => [rev cur]
  | c :: s' =>
      if sep c then
        if in_run then split_go sep true cur s'
        else rev cur :: split_go sep true [] s'
      else split_go sep false (c :: cur) s'
  end.

Definition split_runs (sep : N -> bool) (s : jsstring) : list jsstring :=
  split_go sep false [] s.

(** Truthiness of an optional string field ([undefined] and [''] are falsy). *)
Definition truthy (o : option jsstring) : bool :=
  match o with Some s => nonempty s | None => false end.

(** [a || b] on optional strings, with a default that is a plain string. *)
Definition or_else (o : option jsstring) (d : jsstring) : jsstring :=
  match o with
  | Some s => if nonempty s then s else d
  | None => d
  end.

End Js.

Import Js.

(* ================================================================== *)
(** ** Summarizer client (modules/summarizer.js) *)
(* ================================================================== *)

Module Summarizer.

(** [SummarizerOptions] *)
Record SummarizerOptions := {
  length : jsstring;            (* 'short' | 'medium' | 'long' *)
  includeKeyPoints : bool
}.

(** [SummaryResult]; an absent [keyPoints] property is [None]. *)
Record SummaryResult := {
  summary : jsstring;
  keyPoints : option (list jsstring);
  originalWordCount : nat;
  summaryWordCount : nat
}.

(** [getLengthInstructions] *)
Definition getLengthInstructions (len : jsstring) : jsstring :=
  if Js.eqb len (lit "short") then
    lit "in a very concise way (about 1-2 paragraphs)"
  else if Js.eqb len (lit "medium") then
    lit "with moderate detail (about 3-4 paragraphs)"
  else if Js.eqb len (lit "long") then
    lit "comprehensively, covering all important aspects (about 5-7 paragraphs)"
  else lit "with moderate detail".

Definition nl : jsstring := [10%N].
Definition indent : jsstring := lit "    ".

(** [generatePrompt]: the template literal, line by line. *)
Definition generatePrompt (content : jsstring) (options : SummarizerOptions)
  : jsstring :=
  let lengthInstructions := getLengthInstructions (length options) in
  let keyPointsInstruction :=
    if includeKeyPoints options
    then lit "Include a section with 3-5 key points from the article."
    else [] in
  nl
  ++ indent ++ lit "Summarize the following article " ++ lengthInstructions
            ++ lit "." ++ nl
  ++ indent ++ keyPointsInstruction ++ nl
  ++ indent ++ lit "Focus on the main ideas and important details." ++ nl
  ++ indent ++ lit "Use clear and concise language." ++ nl
  ++ indent ++ nl
  ++ indent ++ lit "ARTICLE:" ++ nl
  ++ indent ++ content ++ nl
  ++ lit "  ".

(** [countWords]: [text.split(/\s+/).filter(Boolean).length] *)
Definition countWords (text : jsstring) : nat :=
  List.length (filter nonempty (split_runs is_space text)).

(** The alternatives of the heading pattern
    [/key points:|main points:|key takeaways:|main takeaways:/i]. *)
Definition headings : list jsstring :=
  [lit "key points:"; lit "main points:"; lit "key takeaways:";
   lit "main takeaways:"].

(** Case folding of the [i] flag.  Without the [u] flag a code unit is
    compared through its upper-case form, and a character outside ASCII
    never folds onto an ASCII one; on the pattern above, all of whose
    characters are ASCII, only the folding of [a-z] can make a match. *)
Definition canonicalize (c : N) : N :=
  if ((97 <=? c) && (c <=? 122))%N then (c - 32)%N else c.

(** The pattern [pat] matches at the start of [s], ignoring case. *)
Fixpoint matches_here (pat s : jsstring) : bool :=
  match pat, s with
  | [], _ => true
  | _ :: _, [] => false
  | a :: pat', b :: s' =>
      (canonicalize a =? canonicalize b)%N && matches_here pat' s'
  end.

Definition heading_here (s : jsstring) : bool :=
  existsb (fun h => matches_here h s) headings.

(** [summary.match(/.../i)]: the index of the leftmost match, if any. *)
Fixpoint match_index (s : jsstring) : option nat :=
  if heading_here s then Some 0
  else match s with
       | [] => None
       | _ :: s' => option_map S (match_index s')
       end.

(** [/^\d+\./.test(t)] *)
Definition numbered (t : jsstring) : bool :=
  match t with
  | [] => false
  | c :: _ =>
      is_digit c &&
      match dropWhile is_digit t with
      | d :: _ => (d =? 46)%N
      | [] => false
      end
  end.

(** The predicate of the first [filter]: the line, trimmed, starts with
    ['-'], with the bullet U+2022, or with digits and a dot. *)
Definition is_item (line : jsstring) : bool :=
  let t := trim line in
  startsWith (lit "-") t || startsWith [8226%N] t || numbered t.

(** The character class [[-•\d.\s]]. *)
Definition marker_char (c : N) : bool :=
  ((c =? 45) || (c =? 8226) || is_digit c || (c =? 46))%N || is_space c.

(** [line.replace(/^[-•\d.\s]+/, '').trim()] *)
Definition strip_marker (line : jsstring) : jsstring :=
  trim (dropWhile marker_char line).

Definition is_newline (c : N) : bool := (c =? 10)%N.

(** The lines of the key-points section after its first line. *)
Definition section_lines (section : jsstring) : list jsstring :=
  skipn 1 (split_runs is_newline section).

(** [extractKeyPoints] *)
Definition extractKeyPoints (text : jsstring)
  : jsstring * option (list jsstring) :=
  match match_index text with
  | Some splitIndex =>
      let mainSummary := trim (firstn splitIndex text) in
      let keyPointsSection := skipn splitIndex text in
      let kps :=
        filter nonempty
          (map strip_marker (filter is_item (section_lines keyPointsSection))) in
      (mainSummary, match kps with [] => None | _ :: _ => Some kps end)
  | None => (text, None)
  end.

(** What one call of [ai.models.generateContent] does: it resolves with a
    result whose [text] may be undefined, or it throws.  A thrown [null] or
    [undefined] is kept apart, because reading [err.message] of it throws
    again, inside the handler. *)
Inductive thrown :=
| ThrownNullish
| ThrownError (message : jsstring).

Inductive ai_outcome :=
| AiResolved (text : option jsstring)
| AiRejected (err : thrown).

(** What the run does that can be seen from outside. *)
Inductive event :=
| EvGenerate (prompt : jsstring)
| EvLogError (err : thrown)
| EvSleep (ms : Z)
| EvShowError.

(** State of the retry loop. *)
Record loop_state := {
  retries : Z;
  error : option thrown;
  calls : nat;
  trace : list event
}.

Definition maxRetries : Z := 3.

(** How the loop is left: by [return], by an exception that escapes the
    handler, or by its condition turning false. *)
Inductive loop_exit :=
| Returned (r : SummaryResult) (tr : list event)
| Escaped (tr : list event)
| Exhausted (st : loop_state).

Section WithService.

(** The service: the outcome of the [n]-th call, given its prompt. *)
Variable ai : nat -> jsstring -> ai_outcome.

(** [while (retries < maxRetries) { try {...} catch (err) {...} }];
    [None] when the fuel runs out. *)
Fixpoint retry_loop (fuel : nat) (prompt : jsstring) (owc : nat)
    (st : loop_state) : option loop_exit :=
  match fuel with
  | O => None
  | S fuel' =>
      if (retries st <? maxRetries)%Z then
        let tr := trace st ++ [EvGenerate prompt] in
        match ai (calls st) prompt with
        | AiResolved text =>
            let summaryText := or_else text [] in
            let '(s, kps) := extractKeyPoints summaryText in
            Some (Returned {| summary := s;
                              keyPoints := kps;
                              originalWordCount := owc;
                              summaryWordCount := countWords s |} tr)
        | AiRejected ThrownNullish => Some (Escaped tr)
        | AiRejected (ThrownError m as err) =>
            let retries' := (retries st + 1)%Z in
            let delay := (2 ^ retries' * 1000)%Z in
            retry_loop fuel' prompt owc
              {| retries := retries';
                 error := Some err;
                 calls := S (calls st);
                 trace := tr ++ [EvLogError err; EvSleep delay] |}
        end
      else Some (Exhausted st)
  end.

(** The result of the outer handler. *)
Definition fallback (owc : nat) : SummaryResult :=
  {| summary := lit "Failed to generate summary. Please try again later.";
     keyPoints := None;
     originalWordCount := owc;
     summaryWordCount := 0 |}.

(** [summarize].  [cached] tells whether the client handle exists already;
    [apiKey] is the environment's key, read when it does not.  Every
    exception of the body is caught by the outer handler.  Progress and
    error messages go to the logger, which is left out but for the place of
    [showError]. *)
Definition summarize (fuel : nat) (cached : bool) (apiKey : option jsstring)
    (content : jsstring) (options : SummarizerOptions)
  : option (SummaryResult * list event) :=
  let owc := countWords content in
  if cached || truthy apiKey then
    let prompt := generatePrompt content options in
    match retry_loop fuel prompt owc
            {| retries := 0; error := None; calls := 0; trace := [] |} with
    | None => None
    | Some (Returned r tr) => Some (r, tr)
    | Some (Escaped tr) => Some (fallback owc, tr ++ [EvShowError])
    | Some (Exhausted st) => Some (fallback owc, trace st ++ [EvShowError])
    end
  else Some (fallback owc, [EvShowError]).

End WithService.

(** *** Notions of the specification *)

(** The heading [h] stands in [text] at index [i], in whatever case. *)
Definition occurs_at (h text : jsstring) (i : nat) : Prop :=
  i <= List.length text /\
  exists mid post,
    skipn i text = mid ++ post /\ map canonicalize mid = map canonicalize h.

(** [text] contains one of the heading phrases. *)
Definition contains_heading (text : jsstring) : Prop :=
  exists h i, In h headings /\ occurs_at h text i.

(** The leftmost place of a heading phrase in [text] is [i]. *)
Definition first_heading_at (text : jsstring) (i : nat) : Prop :=
  (exists h, In h headings /\ occurs_at h text i) /\
  forall j h, j < i -> In h headings -> ~ occurs_at h text j.

(** A line starts with an item marker: a dash, a bullet, or digits and a
    dot. *)
Definition item_marker (t : jsstring) : Prop :=
  (exists r, t = 45%N :: r) \/
  (exists r, t = 8226%N :: r) \/
  (exists ds r, ds <> [] /\ Forall (fun c => is_digit c = true) ds
                /\ t = ds ++ 46%N :: r).

(** Every call of the service throws. *)
Definition always_fails (ai : nat -> jsstring -> ai_outcome) : Prop :=
  forall n prompt, exists err, ai n prompt = AiRejected err.

(** *** Example responses *)

(** The response of the specification's example. *)
Definition sample_response : jsstring :=
  lit "Paragraph one." ++ [10; 10]%N ++ lit "Key Points:" ++ [10]%N
  ++ lit "- Point A" ++ [10]%N ++ lit "- Point B".

(** A response with a heading and no list under it. *)
Definition heading_only_response : jsstring :=
  lit "Intro text." ++ [10]%N ++ lit "Main Takeaways: see below" ++ [10]%N
  ++ lit "plain closing line".

(** *** Counting words and calls *)

(** The number of words of [s], read character by character: [inword]
    tells that the character before was not white space. *)
Fixpoint count_tokens (sep : N -> bool) (inword : bool) (s : jsstring) : nat :=
  match s with
  | [] => if inword then 1 else 0
  | c :: s' =>
      if sep c then (if inword then 1 else 0) + count_tokens sep false s'
      else count_tokens sep true s'
  end.

(** The calls of the service in a run. *)
Fixpoint generate_calls (tr : list event) : nat :=
  match tr with
  | [] => 0
  | EvGenerate _ :: tr' => S (generate_calls tr')
  | _ :: tr' => generate_calls tr'
  end.

(** The waits of a run. *)
Fixpoint waits (tr : list event) : list Z :=
  match tr with
  | [] => []
  | EvSleep ms :: tr' => ms :: waits tr'
  | _ :: tr' => waits tr'
  end.

(** What a run of the loop has done when it is left. *)
Definition exit_trace (ex : loop_exit) : list event :=
  match ex with
  | Returned _ tr => tr
  | Escaped tr => tr
  | Exhausted st => trace st
  end.

(** The service throws an error object at every call. *)
Definition always_errors (ai : nat -> jsstring -> ai_outcome) : Prop :=
  forall n prompt, exists m, ai n prompt = AiRejected (ThrownError m).

(** A service that fails once and then answers. *)
Definition answers_second (n : nat) (_ : jsstring) : ai_outcome :=
  match n with
  | O => AiRejected (ThrownError (lit "503"))
  | _ => AiResolved (Some sample_response)
  end.

End Summarizer.

(* ================================================================== *)
(** ** Extractor (modules/extractor.ts) *)
(* ================================================================== *)

Module Extractor.

(** The parsed document, as the HTML parser hands it to the query library:
    text nodes and elements with a name, attributes and children. *)
#[warnings="-register-all"] Inductive node :=
| TextNode (data : jsstring)
| Element (name : jsstring) (attribs : list (jsstring * jsstring))
          (children : list node).

(** An element is identified by where it stands: the child indices that
    lead to it from the root.  A selection (what [$(...)] returns) lists
    elements in document order. *)
Definition path := list nat.
Definition located := (path * node)%type.
Definition selection := list located.

(** Name and attributes of an element. *)
Definition head := (jsstring * list (jsstring * jsstring))%type.

Fixpoint attr (key : jsstring) (attribs : list (jsstring * jsstring))
  : option jsstring :=
  match attribs with
  | [] => None
  | (k, v) :: rest => if Js.eqb k key then Some v else attr key rest
  end.

(** A compound selector: an optional tag name, class names and an optional
    id, all of which the element must have. *)
Record compound := {
  sel_tag : option jsstring;
  sel_classes : list jsstring;
  sel_id : option jsstring
}.

(** A selector is a chain of compounds joined by the descendant combinator,
    outermost first; a selector list (['div, section, main']) is a list of
    them. *)
Definition selector := list compound.

Definition tag (t : string) : compound :=
  {| sel_tag := Some (lit t); sel_classes := []; sel_id := None |}.
Definition cls (c : string) : compound :=
  {| sel_tag := None; sel_classes := [lit c]; sel_id := None |}.
Definition ident (i : string) : compound :=
  {| sel_tag := None; sel_classes := []; sel_id := Some (lit i) |}.
Definition tag_cls (t c : string) : compound :=
  {| sel_tag := Some (lit t); sel_classes := [lit c]; sel_id := None |}.

Definition has_class (c : jsstring) (h : head) : bool :=
  match attr (lit "class") (snd h) with
  | Some v => existsb (Js.eqb c) (split_runs is_space v)
  | None => false
  end.

Definition matches_compound (c : compound) (h : head) : bool :=
  match sel_tag c with Some t => Js.eqb t (fst h) | None => true end
  && forallb (fun k => has_class k h) (sel_classes c)
  && match sel_id c with
     | Some i => match attr (lit "id") (snd h) with
                 | Some v => Js.eqb i v
                 | None => false
                 end
     | None => true
     end.

(** The outer compounds of a chain, innermost first, against the ancestors
    of an element, nearest first. *)
Fixpoint matches_ancestors (cs : list compound) (ancs : list head) : bool :=
  match cs with
  | [] => true
  | c :: cs' =>
      (fix find (l : list head) : bool :=
         match l with
         | [] => false
         | a :: l' =>
             if matches_compound c a then matches_ancestors cs' l'
             else find l'
         end) ancs
  end.

Definition matches_selector (s : selector) (ancs : list head) (h : head)
  : bool :=
  match rev s with
  | [] => false
  | c :: outer => matches_compound c h && matches_ancestors outer ancs
  end.

Definition matches_any (ss : list selector) (ancs : list head) (h : head)
  : bool :=
  existsb (fun s => matches_selector s ancs h) ss.

(** The elements of a subtree that a test accepts, in document order.
    [ancs] are the ancestors of [n], nearest first, and [here] is the path
    of [n], reversed. *)
Fixpoint collect (test : list head -> head -> bool) (ancs : list head)
    (here : path) (n : node) : selection :=
  match n with
  | TextNode _ => []
  | Element name attribs children =>
      let h := (name, attribs) in
      (if test ancs h then [(rev here, n)] else [])
      ++ (fix each (i : nat) (l : list node) : selection :=
            match l with
            | [] => []
            | k :: l' => collect test (h :: ancs) (i :: here) k
                         ++ each (S i) l'
            end) 0 children
  end.

(** [$(selector)] on the document [doc]. *)
Definition select (ss : list selector) (doc : node) : selection :=
  collect (matches_any ss) [] [] doc.

(** [.first()] *)
Definition first (sel : selection) : selection := firstn 1 sel.

(** Text content of a node: its text nodes, in document order. *)
Fixpoint node_text (n : node) : jsstring :=
  match n with
  | TextNode data => data
  | Element _ _ children => flat_map node_text children
  end.

(** [.text()]: the text of every selected element, concatenated. *)
Definition text (sel : selection) : jsstring :=
  flat_map (fun e => node_text (snd e)) sel.

Fixpoint is_prefix (p q : path) : bool :=
  match p, q with
  | [], _ => true
  | _ :: _, [] => false
  | a :: p', b :: q' => Nat.eqb a b && is_prefix p' q'
  end.

Definition strictly_below (e : located) (anc : located) : bool :=
  is_prefix (fst anc) (fst e)
  && Nat.ltb (List.length (fst anc)) (List.length (fst e)).

(** [sel.find(selector)]: the matching elements of the document that lie
    strictly below an element of [sel], each once, in document order. *)
Definition find (ss : list selector) (doc : node) (sel : selection)
  : selection :=
  filter (fun e => existsb (strictly_below e) sel) (select ss doc).

(** The preference lists of the source. *)
Definition titleSelectors : list selector :=
  [ [tag_cls "h1" "article-title"];
    [tag_cls "h1" "entry-title"];
    [tag_cls "h1" "post-title"];
    [tag_cls "h1" "title"];
    [tag "article"; tag "h1"];
    [tag "main"; tag "h1"];
    [cls "article"; tag "h1"];
    [cls "post"; tag "h1"];
    [tag "h1"] ].

Definition contentSelectors : list selector :=
  [ [tag "article"];
    [cls "article"];
    [cls "post"];
    [cls "entry-content"];
    [cls "article-content"];
    [cls "post-content"];
    [cls "content"];
    [tag "main"];
    [ident "main"];
    [ident "content"] ].

(** The [for] loop of [extractTitle]: the first selector that matches
    anything decides, whatever the text of its first element. *)
Fixpoint title_scan (sels : list selector) (doc : node) : option jsstring :=
  match sels with
  | [] => None
  | s :: rest =>
      let titleElement := first (select [s] doc) in
      match titleElement with
      | _ :: _ => Some (trim (text titleElement))
      | [] => title_scan rest doc
      end
  end.

(** [extractTitle]; [None] is [undefined]. *)
Definition extractTitle (doc : node) : option jsstring :=
  match title_scan titleSelectors doc with
  | Some t => Some t
  | None =>
      let t := trim (text (select [[tag "title"]] doc)) in
      if nonempty t then Some t else None
  end.

(** The [for] loop of [findMainContent]: only the first element that a
    selector matches is looked at. *)
Fixpoint content_scan (sels : list selector) (doc : node) : option selection :=
  match sels with
  | [] => None
  | s :: rest =>
      let contentElement := first (select [s] doc) in
      match contentElement with
      | _ :: _ =>
          if Nat.ltb 200 (List.length (trim (text contentElement)))
          then Some contentElement
          else content_scan rest doc
      | [] => content_scan rest doc
      end
  end.

(** An entry of [paragraphContainers]. *)
Record container := {
  element : located;
  count : nat
}.

(** [$(element).find('p').length] *)
Definition paragraphCount (doc : node) (e : located) : nat :=
  List.length (find [[tag "p"]] doc [e]).

(** The [each] loop over [$('body').find('div, section, main')]. *)
Definition paragraphContainers (doc : node) : list container :=
  filter (fun c => Nat.ltb 2 (count c))
    (map (fun e => {| element := e; count := paragraphCount doc e |})
       (find [[tag "div"]; [tag "section"]; [tag "main"]] doc
          (select [[tag "body"]] doc))).

(** [sort((a, b) => b.count - a.count)].  The sort of the language is
    stable, so its result is the one of any stable sort; here insertion,
    which puts an entry behind those that must precede it and before all
    others. *)
Fixpoint insert (a : container) (l : list container) : list container :=
  match l with
  | [] => [a]
  | b :: l' =>
      if Nat.ltb (count a) (count b) then b :: insert a l'
      else a :: l
  end.

Fixpoint sort (l : list container) : list container :=
  match l with
  | [] => []
  | a :: l' => insert a (sort l')
  end.

(** The fallback of [findMainContent], after the selector loop. *)
Definition density_fallback (doc : node) : selection :=
  match sort (paragraphContainers doc) with
  | best :: _ => [element best]
  | [] => select [[tag "body"]] doc
  end.

(** [findMainContent] *)
Definition findMainContent (doc : node) : selection :=
  match content_scan contentSelectors doc with
  | Some contentElement => contentElement
  | None => density_fallback doc
  end.

(** The title of [extractContent]:
    [extractTitle($) || new URL(url).hostname].  The host name is read only
    when no title was found; [None] is the exception of [new URL]. *)
Definition resolveTitle (hostname : jsstring -> option jsstring)
    (doc : node) (url : jsstring) : option jsstring :=
  if truthy (extractTitle doc) then extractTitle doc else hostname url.

(** *** Notions of the specification *)

(** The first element a selector matches is long enough to be taken. *)
Definition qualifies (doc : node) (s : selector) : Prop :=
  exists e rest,
    select [s] doc = e :: rest
    /\ 200 < List.length (trim (node_text (snd e))).

(** The blocks that the fallback looks at, in document order. *)
Definition blocks (doc : node) : selection :=
  find [[tag "div"]; [tag "section"]; [tag "main"]] doc
    (select [[tag "body"]] doc).

(** C4 as the specification words it: when no selector of the list yields a
    non-empty text, the title is the text of the [title] element, if that is
    not empty. *)
Definition empty_headings_fall_back_to_title : Prop :=
  forall (hostname : jsstring -> option jsstring) (doc : node) (url : jsstring),
    (forall s, In s titleSelectors ->
               trim (text (first (select [s] doc))) = []) ->
    trim (text (select [[tag "title"]] doc)) <> [] ->
    resolveTitle hostname doc url
    = Some (trim (text (select [[tag "title"]] doc))).

(** C5 as the specification words it: when some selector of the list
    matches an element with more than 200 characters of text, the result is
    such an element. *)
Definition any_long_match_is_selected : Prop :=
  forall (doc : node) (s : selector) (e : located),
    In s contentSelectors ->
    In e (select [s] doc) ->
    200 < List.length (trim (node_text (snd e))) ->
    exists s' e',
      findMainContent doc = [e']
      /\ In s' contentSelectors
      /\ In e' (select [s'] doc)
      /\ 200 < List.length (trim (node_text (snd e'))).

(** *** Example documents *)

Definition el (t : string) (kids : list node) : node :=
  Element (lit t) [] kids.
Definition txt (s : string) : node := TextNode (lit s).
Definition long_text : node := TextNode (repeat 97%N 201).
Definition par : node := el "p" [txt "x"].

Definition example_host (_ : jsstring) : option jsstring :=
  Some (lit "example.com").

(** A page whose only heading is empty. *)
Definition empty_heading_doc : node :=
  el "html" [el "head" [el "title" [txt "Doc Title"]];
             el "body" [el "h1" []; el "p" [txt "Body text."]]].

(** A page with a heading inside its article. *)
Definition article_heading_doc : node :=
  el "html" [el "head" [el "title" [txt "Doc Title"]];
             el "body" [el "h1" [txt "Site name"];
                        el "article" [el "h1" [txt " Story "]]]].

(** A page with a short teaser article before the long one. *)
Definition two_articles_doc : node :=
  el "html" [el "head" [];
             el "body" [el "article" [el "p" [txt "short"]];
                        el "article" [el "p" [long_text]]]].

(** A page with an article and a generic block of more paragraphs. *)
Definition dense_div_doc : node :=
  el "html" [el "head" [];
             el "body" [el "div" [par; par; par; par];
                        el "article" [el "p" [long_text]]]].

(** A page without semantic containers. *)
Definition blocks_doc : node :=
  el "html" [el "head" [];
             el "body" [el "div" [par; par; par];
                        el "section" [par; par; par; par];
                        el "div" [par; par; par; par]]].

(** *** Boilerplate removal *)

(** What [removeUnwantedElements] removes by: a selector of the kind above,
    or an attribute selector [[name="value"]]. *)
Inductive removal :=
| BySelector (s : selector)
| ByAttribute (name value : jsstring).


Definition by_tag (t : string) : removal := BySelector [tag t].
Definition by_class (c : string) : removal := BySelector [cls c].





(** No element of the subtree is accepted by the test. *)
Fixpoint free_of (test : list head -> head -> bool) (ancs : list head)
    (n : node) : bool :=
  match n with
  | TextNode _ => true
  | Element name attribs children =>
      let h := (name, attribs) in
      negb (test ancs h) && forallb (free_of test (h :: ancs)) children
  end.

(** The loop of [collect] over the children of an element, by name. *)
Fixpoint collect_children (test : list head -> head -> bool)
    (ancs : list head) (here : path) (i : nat) (l : list node) : selection :=
  match l with
  | [] => []
  | k :: l' => collect test ancs (i :: here) k
               ++ collect_children test ancs here (S i) l'
  end.

(** *** White space of text nodes *)

(** [text.replace(/\s+/g, ' ')]: every run of white space becomes one
    space.  [in_run] tells that the character before was white space. *)
Fixpoint collapse (in_run : bool) (s : jsstring) : jsstring :=
  match s with
  | [] => []
  | c :: s' =>
      if is_space c then
        if in_run then collapse true s' else 32%N :: collapse true s'
      else c :: collapse false s'
  end.

(** What [cleanContent] stores in a text node:
    [text.replace(/\s+/g, ' ').trim()]. *)
Definition normalizeWhitespace (s : jsstring) : jsstring :=
  trim (collapse false s).

(** White space stands in [s] only as single spaces, none of them first;
    [after_space] tells that the character before was one. *)
Fixpoint single_spaced (after_space : bool) (s : jsstring) : bool :=
  match s with
  | [] => true
  | c :: s' =>
      if is_space c then (c =? 32)%N && negb after_space && single_spaced true s'
      else single_spaced false s'
  end.

(** *** More example documents *)



(** *** Cleaning the content *)

(** [ExtractorOptions] *)
Record ExtractorOptions := {
  removeSelectors : list removal;
  includeImages : bool;
  preserveLinks : bool
}.

Definition is_tag (t : string) (n : node) : bool :=
  match n with
  | TextNode _ => false
  | Element name _ _ => Js.eqb (lit t) name
  end.

(** A paragraph with [paragraph.text().trim() === '']. *)
Definition blank_paragraph (n : node) : bool :=
  is_tag "p" n && negb (nonempty (trim (node_text n))).

(** A subtree without the elements that a test on nodes accepts. *)
Fixpoint drop_nodes (test : node -> bool) (n : node) : list node :=
  match n with
  | TextNode data => [TextNode data]
  | Element name attribs children =>
      if test n then []
      else [Element name attribs (flat_map (drop_nodes test) children)]
  end.

(** [link.replaceWith(link.text())] for every link of a subtree: the text
    is handed to the HTML parser, [parse], and what it makes of it takes
    the place of the link. *)
Fixpoint replace_links (parse : jsstring -> list node) (n : node)
  : list node :=
  match n with
  | TextNode data => [TextNode data]
  | Element name attribs children =>
      if Js.eqb (lit "a") name then parse (node_text n)
      else [Element name attribs (flat_map (replace_links parse) children)]
  end.

(** The text nodes of a subtree, normalized. *)
Fixpoint normalize_texts (n : node) : node :=
  match n with
  | TextNode data => TextNode (normalizeWhitespace data)
  | Element name attribs children =>
      Element name attribs (map normalize_texts children)
  end.

(** [content.find('*').contents()] are the children of the elements below
    the content element: a text node that is a child of the content
    element itself is not among them. *)
Definition normalize_below (k : node) : node :=
  match k with
  | TextNode data => TextNode data
  | Element _ _ _ => normalize_texts k
  end.

(** [cleanContent], on a content selection of one element. *)
Definition cleanContent (parse : jsstring -> list node)
    (options : ExtractorOptions) (content : node) : node :=
  match content with
  | TextNode data => TextNode data
  | Element name attribs children =>
      let kept := flat_map (drop_nodes blank_paragraph) children in
      let shown :=
        if includeImages options then kept
        else flat_map (drop_nodes (is_tag "img")) kept in
      let plain :=
        if preserveLinks options then shown
        else flat_map (replace_links parse) shown in
      Element name attribs (map normalize_below plain)
  end.

(** The data of the text nodes of a subtree, in document order. *)
Fixpoint texts (n : node) : list jsstring :=
  match n with
  | TextNode data => [data]
  | Element _ _ children => flat_map texts children
  end.

Definition is_element (n : node) : bool :=
  match n with TextNode _ => false | Element _ _ _ => true end.

(** The children of a node. *)
Definition children_of (n : node) : list node :=
  match n with
  | TextNode _ => []
  | Element _ _ children => children
  end.

(** A page whose article holds an image, a paragraph with only an image,
    and text with irregular white space. *)
Definition untidy_article : node :=
  el "article"
    [txt "  bare   text ";
     el "p" [Element (lit "img") [(lit "src", lit "a.png")] []];
     el "div" [Element (lit "img") [(lit "src", lit "b.png")] [];
               el "p" [txt "  one   two "]]].

Definition default_options : ExtractorOptions :=
  {| removeSelectors := [by_tag "nav"; by_tag "header"; by_tag "footer";
                         by_class "ads"; by_class "comments";
                         by_class "sidebar"];
     includeImages := false;
     preserveLinks := true |}.

End Extractor.

(* ================================================================== *)
(** ** Error taxonomy (modules/utils/error.js, constants.js) *)
(* ================================================================== *)

Module Errors.

Inductive ErrorType :=
| NETWORK | API | VALIDATION | EXTRACTION | SUMMARIZATION
| FILE_SYSTEM | CONFIGURATION | UNKNOWN.

(** Keys of [ERROR_MESSAGES.NETWORK]. *)
Inductive NetworkSubtype :=
| CONNECTION_FAILED | TIMEOUT | INVALID_URL | INVALID_RESPONSE.

Definition network_message (s : NetworkSubtype) : jsstring :=
  match s with
  | CONNECTION_FAILED => lit "Failed to connect to the server"
  | TIMEOUT => lit "Request timed out"
  | INVALID_URL => lit "Invalid URL format"
  | INVALID_RESPONSE => lit "Invalid response from server"
  end.

(** A value of the context object. *)
Inductive ctx_value :=
| CtxString (s : jsstring)
| CtxNumber (n : Z).

(** [AppError]; the original error is kept by its message. *)
Record AppError := {
  type : ErrorType;
  message : jsstring;
  originalError : option jsstring;
  context : list (jsstring * ctx_value)
}.

(** [createNetworkError] *)
Definition createNetworkError (subtype : NetworkSubtype)
    (original : option jsstring) (ctx : list (jsstring * ctx_value))
  : AppError :=
  {| type := NETWORK;
     message := network_message subtype;
     originalError := original;
     context := ctx |}.

End Errors.

(* ================================================================== *)
(** ** Fetcher (modules/scraper.js) *)
(* ================================================================== *)

Module Scraper.

Import Errors.

(** [config.scraper] merged with the call's options. *)
Record ScraperOptions := {
  timeout : Z;
  retries : Z;
  userAgent : jsstring
}.

(** What the HTTP client resolves with. *)
Record Response := {
  data : jsstring;
  content_type : option jsstring;     (* headers['content-type'] *)
  status : Z
}.

(** What the HTTP client rejects with: an error of its own, with a code and,
    when the server answered, the status of the answer (a status outside
    2xx is such an error); or any other error. *)
Inductive request_error :=
| AxiosError (msg : jsstring) (code : option jsstring)
             (response : option (Z * jsstring))
| OtherError (msg : jsstring).

Definition error_message (e : request_error) : jsstring :=
  match e with AxiosError m _ _ => m | OtherError m => m end.

Inductive outcome :=
| Resolved (r : Response)
| Rejected (e : request_error).

(** [ScraperResult] *)
Record ScraperResult := {
  html : jsstring;
  url : jsstring;
  title : option jsstring;
  metadata : list (jsstring * jsstring)
}.

Inductive event :=
| EvRequest (target : jsstring)
| EvSleep (ms : Z).

(** The variables of the retry loop, and what it has done. *)
Record loop_state := {
  response : option Response;
  attempts : Z;
  lastError : option request_error;
  calls : nat;
  trace : list event
}.

(** The spec's notion of a URL that carries a scheme: a letter, then
    letters, digits, [+], [-] or [.], then a colon. *)
Definition is_alpha (c : N) : bool :=
  ((65 <=? c) && (c <=? 90) || (97 <=? c) && (c <=? 122))%N.

Fixpoint scheme_rest (s : jsstring) : bool :=
  match s with
  | [] => false
  | c :: s' =>
      if (c =? 58)%N then true
      else if is_alpha c || is_digit c || (c =? 43)%N || (c =? 45)%N
              || (c =? 46)%N
      then scheme_rest s'
      else false
  end.

Definition has_scheme (s : jsstring) : bool :=
  match s with
  | [] => false
  | c :: s' => is_alpha c && scheme_rest s'
  end.

Section WithPlatform.

(** [new URL(u).toString()]: the serialized URL, or [None] when the
    constructor throws. *)
Variable parse_url : jsstring -> option jsstring.

(** The two regular-expression scans of the page, [extractTitle] and
    [extractMetadata]; what they find is carried into the result. *)
Variable page_title : jsstring -> option jsstring.
Variable page_metadata : jsstring -> list (jsstring * jsstring).

(** The network: the outcome of the [n]-th request. *)
Variable net : nat -> outcome.

(** The string handed to the URL parser. *)
Definition candidate (u : jsstring) : jsstring :=
  if negb (startsWith (lit "http://") u) && negb (startsWith (lit "https://") u)
  then lit "https://" ++ u
  else u.

(** [validateUrl] *)
Definition validateUrl (u : jsstring) : jsstring + AppError :=
  let u' := candidate u in
  match parse_url u' with
  | Some parsed => inl parsed
  | None =>
      inr (createNetworkError INVALID_URL (Some (lit "Invalid URL"))
             [(lit "url", CtxString u')])
  end.

(** The [while] loop of [scrapeUrl]; [None] when the fuel runs out. *)
Fixpoint retry_loop (fuel : nat) (cfg : ScraperOptions) (target : jsstring)
    (st : loop_state) : option loop_state :=
  match fuel with
  | O => None
  | S fuel' =>
      if (attempts st <=? retries cfg)%Z then
        let tr := trace st ++ [EvRequest target] in
        match net (calls st) with
        | Resolved r =>
            Some {| response := Some r;
                    attempts := attempts st;
                    lastError := lastError st;
                    calls := S (calls st);
                    trace := tr |}
        | Rejected e =>
            let attempts' := (attempts st + 1)%Z in
            if (attempts' >? retries cfg)%Z then
              Some {| response := None;
                      attempts := attempts';
                      lastError := Some e;
                      calls := S (calls st);
                      trace := tr |}
            else
              let delay := (2 ^ attempts' * 1000)%Z in
              retry_loop fuel' cfg target
                {| response := None;
                   attempts := attempts';
                   lastError := Some e;
                   calls := S (calls st);
                   trace := tr ++ [EvSleep delay] |}
        end
      else Some st
  end.

(** [lastError.code === c] *)
Definition code_is (code : option jsstring) (c : string) : bool :=
  match code with
  | Some k => Js.eqb k (lit c)
  | None => false
  end.

(** The error thrown when the loop ends without a response. *)
Definition no_response_error (cfg : ScraperOptions) (target : jsstring)
    (lastError : option request_error) : AppError :=
  match lastError with
  | Some (AxiosError m code resp) =>
      if code_is code "ECONNABORTED" then
        createNetworkError TIMEOUT (Some m)
          [(lit "url", CtxString target);
           (lit "timeout", CtxNumber (timeout cfg))]
      else if code_is code "ENOTFOUND" then
        createNetworkError CONNECTION_FAILED (Some m)
          [(lit "url", CtxString target)]
      else
        match resp with
        | Some (st, stText) =>
            createNetworkError CONNECTION_FAILED (Some m)
              [(lit "url", CtxString target); (lit "status", CtxNumber st);
               (lit "statusText", CtxString stText)]
        | None =>
            createNetworkError CONNECTION_FAILED (Some m)
              [(lit "url", CtxString target)]
        end
  | Some (OtherError m) =>
      createNetworkError CONNECTION_FAILED (Some m)
        [(lit "url", CtxString target)]
  | None =>
      createNetworkError CONNECTION_FAILED
        (Some (lit "Failed to fetch URL after retries"))
        [(lit "url", CtxString target)]
  end.

(** The check of the content type, after the loop. *)
Definition is_html (r : Response) : bool :=
  let contentType := or_else (content_type r) [] in
  includes (lit "text/html") contentType
  || includes (lit "application/xhtml+xml") contentType.

(** [scrapeUrl]: the result or the [AppError] thrown, with the requests and
    waits made.  Every exception raised inside the outer [try] is an
    [AppError], which the outer handler throws again as it is.  Progress
    messages go to the logger, which is left out. *)
Definition scrapeUrl (fuel : nat) (cfg : ScraperOptions) (u : jsstring)
  : option ((ScraperResult + AppError) * list event) :=
  match validateUrl u with
  | inr e => Some (inr e, [])
  | inl normalizedUrl =>
      match retry_loop fuel cfg normalizedUrl
              {| response := None; attempts := 0; lastError := None;
                 calls := 0; trace := [] |} with
      | None => None
      | Some st =>
          match response st with
          | None =>
              Some (inr (no_response_error cfg normalizedUrl (lastError st)),
                    trace st)
          | Some r =>
              if is_html r then
                Some (inl {| html := data r;
                             url := normalizedUrl;
                             title := page_title (data r);
                             metadata := page_metadata (data r) |},
                      trace st)
              else
                Some (inr (createNetworkError INVALID_RESPONSE
                             (Some (lit "Response is not HTML content"))
                             [(lit "url", CtxString normalizedUrl);
                              (lit "contentType",
                               CtxString (or_else (content_type r) []))]),
                      trace st)
          end
      end
  end.

End WithPlatform.

(** *** Notions of the specification *)

(** Requests of a run, and the waits between them. *)
Fixpoint requests (tr : list event) : nat :=
  match tr with
  | [] => 0
  | EvRequest _ :: tr' => S (requests tr')
  | EvSleep _ :: tr' => requests tr'
  end.

Fixpoint delays (tr : list event) : list Z :=
  match tr with
  | [] => []
  | EvRequest _ :: tr' => delays tr'
  | EvSleep ms :: tr' => ms :: delays tr'
  end.

Local Open Scope Z_scope.

(** [n] rejected requests, each followed by its wait, when [k] requests
    were rejected before. *)
Fixpoint retry_steps (target : jsstring) (k : Z) (n : nat) : list event :=
  match n with
  | O => []
  | S n' =>
      EvRequest target :: EvSleep (2 ^ (k + 1) * 1000)
      :: retry_steps target (k + 1) n'
  end.

(** A run of [n] rejected requests and one last request. *)
Definition attempts_trace (target : jsstring) (n : nat) : list event :=
  retry_steps target 0 n ++ [EvRequest target].

(** C2 as the specification words it: a content type that is not HTML
    counts as a failure of the request, which is then made again as long
    as retries are left. *)
Definition non_html_is_retried : Prop :=
  forall (parse_url : jsstring -> option jsstring)
         (page_title : jsstring -> option jsstring)
         (page_metadata : jsstring -> list (jsstring * jsstring))
         (net : nat -> outcome) (fuel : nat) (cfg : ScraperOptions)
         (u target : jsstring),
    parse_url (candidate u) = Some target ->
    (forall n, exists r, net n = Resolved r /\ is_html r = false) ->
    0 < retries cfg ->
    (Z.to_nat (retries cfg) < fuel)%nat ->
    exists res tr,
      scrapeUrl parse_url page_title page_metadata net fuel cfg u
      = Some (res, tr)
      /\ (1 < requests tr)%nat.

(** *** Example platforms *)

(** A stand-in for the URL parser: it refuses what holds white space. *)
Definition example_parse_url (u : jsstring) : option jsstring :=
  if existsb is_space u then None else Some u.

Definition no_title (_ : jsstring) : option jsstring := None.
Definition no_metadata (_ : jsstring) : list (jsstring * jsstring) := [].

Definition example_config : ScraperOptions :=
  {| timeout := 10000; retries := 3;
     userAgent := lit "Mozilla/5.0 (compatible; ArticleSummarizer/1.0)" |}.

(** A server that answers every request with JSON. *)
Definition json_response : Response :=
  {| data := lit "{}"; content_type := Some (lit "application/json");
     status := 200 |}.
Definition json_server (_ : nat) : outcome := Resolved json_response.

(** A host that never answers. *)
Definition silent_host (_ : nat) : outcome :=
  Rejected (AxiosError (lit "timeout of 10000ms exceeded")
              (Some (lit "ECONNABORTED")) None).

(** A server that fails twice and then answers with JSON. *)
Definition flaky_json_server (n : nat) : outcome :=
  if Nat.ltb n 2
  then Rejected (AxiosError (lit "Request failed with status code 503") None
                   (Some (503, lit "Service Unavailable")))
  else Resolved json_response.

(** *** The title of the page *)

Fixpoint takeWhile (p : N -> bool) (s : jsstring) : jsstring :=
  match s with
  | [] => []
  | c :: s' => if p c then c :: takeWhile p s' else []
  end.

Definition not_gt (c : N) : bool := negb (c =? 62)%N.
Definition not_lt (c : N) : bool := negb (c =? 60)%N.

(** A match of [/<title[^>]*>([^<]+)<\/title>/i] at the start of [s]: its
    group.  Each part of the pattern can match in one way only: the
    attributes run to the first [>], the group to the first [<]. *)
Definition title_here (s : jsstring) : option jsstring :=
  if Summarizer.matches_here (lit "<title") s then
    match dropWhile not_gt (skipn 6 s) with
    | _ :: body =>
        let group := takeWhile not_lt body in
        if nonempty group
           && Summarizer.matches_here (lit "</title>") (dropWhile not_lt body)
        then Some group
        else None
    | [] => None
    end
  else None.

(** [html.match(...)]: the group of the leftmost match. *)
Fixpoint title_match (s : jsstring) : option jsstring :=
  match title_here s with
  | Some group => Some group
  | None =>
      match s with
      | [] => None
      | _ :: s' => title_match s'
      end
  end.

(** [extractTitle] of the fetcher *)
Definition extractTitle (html : jsstring) : option jsstring :=
  option_map trim (title_match html).

(** *** More example platforms *)



End Scraper.

(* ================================================================== *)
(** ** Formatter (modules/converter.js) *)
(* ================================================================== *)

Module Converter.

(** [ConverterOptions] *)
Record ConverterOptions := {
  includeMetadata : bool;
  codeBlockStyle : jsstring;
  headingStyle : jsstring;
  bulletListMarker : jsstring
}.

(** [getDefaultOptions] *)
Definition getDefaultOptions : ConverterOptions :=
  {| includeMetadata := true;
     codeBlockStyle := lit "fenced";
     headingStyle := lit "atx";
     bulletListMarker := lit "-" |}.

(** [Partial<ConverterOptions>]: the options a caller gives. *)
Record PartialOptions := {
  given_includeMetadata : option bool;
  given_codeBlockStyle : option jsstring;
  given_headingStyle : option jsstring;
  given_bulletListMarker : option jsstring
}.

Definition no_options : PartialOptions :=
  {| given_includeMetadata := None; given_codeBlockStyle := None;
     given_headingStyle := None; given_bulletListMarker := None |}.

Definition given {A : Type} (o : option A) (d : A) : A :=
  match o with Some a => a | None => d end.

(** [{ ...getDefaultOptions(), ...options }] *)
Definition merge (options : PartialOptions) : ConverterOptions :=
  {| includeMetadata :=
       given (given_includeMetadata options) (includeMetadata getDefaultOptions);
     codeBlockStyle :=
       given (given_codeBlockStyle options) (codeBlockStyle getDefaultOptions);
     headingStyle :=
       given (given_headingStyle options) (headingStyle getDefaultOptions);
     bulletListMarker :=
       given (given_bulletListMarker options)
         (bulletListMarker getDefaultOptions) |}.

(** The metadata object of a document; a missing property is [None]. *)
Record Metadata := {
  title : option jsstring;
  url : option jsstring;
  date : option jsstring
}.

(** [ConversionResult] *)
Record ConversionResult := {
  markdown : jsstring;
  metadata : option Metadata
}.

Section WithPlatform.

(** The Markdown converter, configured with the three style options and the
    rule for [pre] blocks: a function of the options and of the markup. *)
Variable turndown : ConverterOptions -> jsstring -> jsstring.

(** [new Date(d).toLocaleDateString()] in the locale of the process. *)
Variable toLocaleDateString : jsstring -> jsstring.

(** [convertToMarkdown]; [now] is what [new Date().toISOString()] gives
    when it is called. *)
Definition convertToMarkdown (now : jsstring) (content : jsstring)
    (options : PartialOptions) : ConversionResult :=
  let converterOptions := merge options in
  {| markdown := turndown converterOptions content;
     metadata :=
       if includeMetadata converterOptions
       then Some {| title := Some []; url := Some []; date := Some now |}
       else None |}.

(** [formatOutput]; [now] is the clock, read only when the metadata has no
    date. *)
Definition formatOutput (now : jsstring) (markdown : jsstring)
    (metadata : Metadata) : jsstring :=
  let formattedDate :=
    if truthy (date metadata)
    then toLocaleDateString (or_else (date metadata) [])
    else toLocaleDateString now in
  (if truthy (title metadata)
   then lit "# " ++ or_else (title metadata) [] ++ [10; 10]%N
   else [])
  ++ lit "## Article Information" ++ [10; 10]%N
  ++ (if truthy (url metadata)
      then lit "**Source:** [" ++ or_else (url metadata) [] ++ lit "]("
           ++ or_else (url metadata) [] ++ lit ")" ++ [10; 10]%N
      else [])
  ++ lit "**Date Summarized:** " ++ formattedDate ++ [10; 10]%N
  ++ lit "---" ++ [10; 10]%N
  ++ lit "## Summary" ++ [10; 10]%N
  ++ markdown.

(** Rendering as the pipeline does it: convert the summary, then format it
    with the metadata.  The two stages read the clock at [now1] and [now2]. *)
Definition render (now1 now2 : jsstring) (summaryText : jsstring)
    (metadata : Metadata) : jsstring :=
  formatOutput now2 (markdown (convertToMarkdown now1 summaryText no_options))
    metadata.

End WithPlatform.

End Converter.

(* ================================================================== *)
(** ** Entry point (index.js) *)
(* ================================================================== *)

Module Main.

Definition is_alnum (c : N) : bool :=
  ((97 <=? c) && (c <=? 122) || (65 <=? c) && (c <=? 90)
   || (48 <=? c) && (c <=? 57))%N.

(** [title.replace(/[^a-zA-Z0-9]/g, '-').toLowerCase()]: after the
    replacement only ASCII letters are left to be lowered. *)
Definition slug_char (c : N) : N :=
  if is_alnum c then
    if ((65 <=? c) && (c <=? 90))%N then (c + 32)%N else c
  else 45%N.

Definition slug (title : jsstring) : jsstring := map slug_char title.

(** The name of the output file when no path is given. *)
Definition defaultFileName (title : jsstring) : jsstring :=
  slug title ++ lit ".md".


End Main.

(* ================================================================== *)
(** * Properties *)
(* ================================================================== *)

(** ** Strings *)

Lemma startsWith_app (p s : jsstring) :
  startsWith p s = true -> exists rest, s = p ++ rest.
Proof.
  revert s; induction p as [|a p IH]; intros s H.
  - now exists s.
  - destruct s as [|b s]; [discriminate|].
    simpl in H. apply andb_true_iff in H as [Hab Hps].
    apply N.eqb_eq in Hab. subst b.
    destruct (IH _ Hps) as [rest ->]. now exists rest.
Qed.

Lemma dropWhile_split (p : N -> bool) (s : jsstring) :
  exists run, s = run ++ dropWhile p s /\ Forall (fun c => p c = true) run.
Proof.
  induction s as [|c s (run & Hs & Hrun)]; simpl.
  - exists []. split; [reflexivity | constructor].
  - destruct (p c) eqn:Hc.
    + exists (c :: run). split; [simpl; now f_equal | now constructor].
    + exists []. split; [reflexivity | constructor].
Qed.

(** ** Summarizer *)

Section SummarizerFacts.

Import Summarizer.

Lemma matches_here_iff (pat s : jsstring) :
  matches_here pat s = true <->
  exists mid post, s = mid ++ post /\ map canonicalize mid = map canonicalize pat.
Proof.
  revert s; induction pat as [|a pat IH]; intros s; simpl.
  - split; [intros _; now exists [], s | reflexivity].
  - destruct s as [|b s].
    + split; [discriminate|].
      intros (mid & post & Hs & Hm).
      destruct mid; [discriminate Hm | discriminate Hs].
    + rewrite andb_true_iff, N.eqb_eq, IH. split.
      * intros (Hab & mid & post & -> & Hm).
        exists (b :: mid), post. split; [reflexivity|].
        simpl. now rewrite Hm, Hab.
      * intros (mid & post & Hs & Hm).
        destruct mid as [|m mid]; [discriminate Hm|].
        simpl in Hs, Hm. injection Hs as -> ->. injection Hm as Hb Hm.
        split; [now symmetry|]. now exists mid, post.
Qed.

Lemma heading_here_iff (s : jsstring) :
  heading_here s = true <-> exists h, In h headings /\ occurs_at h s 0.
Proof.
  unfold heading_here. rewrite existsb_exists. split.
  - intros (h & Hin & Hm). exists h. split; [assumption|].
    split; [lia|]. now apply matches_here_iff.
  - intros (h & Hin & _ & Hm). exists h. split; [assumption|].
    now apply matches_here_iff.
Qed.

Lemma occurs_at_S (h : jsstring) (c : N) (s : jsstring) (i : nat) :
  occurs_at h (c :: s) (S i) <-> occurs_at h s i.
Proof.
  unfold occurs_at. simpl. now rewrite <- Nat.succ_le_mono.
Qed.

Lemma occurs_at_tail (h : jsstring) (c : N) (s : jsstring) (i : nat) :
  occurs_at h (c :: s) (S i) -> occurs_at h s i.
Proof. apply occurs_at_S. Qed.

Lemma occurs_at_cons (h : jsstring) (c : N) (s : jsstring) (i : nat) :
  occurs_at h s i -> occurs_at h (c :: s) (S i).
Proof. apply occurs_at_S. Qed.

Lemma heading_here_nil : heading_here [] = false.
Proof. reflexivity. Qed.

Lemma match_index_cons (c : N) (s : jsstring) :
  match_index (c :: s) =
  if heading_here (c :: s) then Some 0 else option_map S (match_index s).
Proof. reflexivity. Qed.

Lemma no_heading_in_nil (i : nat) (h : jsstring) :
  In h headings -> ~ occurs_at h [] i.
Proof.
  intros Hin [Hi Hoc]. simpl in Hi. assert (i = 0) as -> by lia.
  assert (heading_here [] = true) as E
    by (apply heading_here_iff; exists h; split; [|split]; assumption).
  discriminate E.
Qed.

(** The index found by the search is the leftmost place of a heading. *)
Lemma match_index_Some (s : jsstring) (i : nat) :
  match_index s = Some i <-> first_heading_at s i.
Proof.
  revert i; induction s as [|c s IH]; intros i.
  - split; [discriminate|].
    intros [(h & Hin & Hoc) _]. now apply no_heading_in_nil in Hoc.
  - rewrite match_index_cons. destruct (heading_here (c :: s)) eqn:Hh.
    + split.
      * intros [= <-]. split; [now apply heading_here_iff | intros; lia].
      * intros [_ Hmin]. destruct i; [reflexivity|].
        exfalso. apply heading_here_iff in Hh as (h & Hin & Hoc).
        exact (Hmin 0 h (Nat.lt_0_succ _) Hin Hoc).
    + destruct i as [|i].
      * split.
        -- destruct (match_index s); discriminate.
        -- intros [Hex _]. apply heading_here_iff in Hex. congruence.
      * split.
        -- intros H. destruct (match_index s) as [k|] eqn:Hk; [|discriminate].
           injection H as <-.
           destruct (proj1 (IH k) eq_refl) as [(h & Hin & Hoc) Hmin].
           split.
           ++ exists h. split; [assumption | now apply occurs_at_cons].
           ++ intros [|j] h' Hj Hin' Hoc'.
              ** assert (heading_here (c :: s) = true) as E
                   by (apply heading_here_iff; now exists h').
                 congruence.
              ** apply occurs_at_tail in Hoc'.
                 apply (Hmin j h'); [lia | assumption | assumption].
        -- intros [(h & Hin & Hoc) Hmin].
           assert (first_heading_at s i) as Hf.
           { split.
             - exists h. split; [assumption | now apply occurs_at_tail in Hoc].
             - intros j h' Hj Hin' Hoc'.
               apply (Hmin (S j) h'); [lia | assumption |].
               now apply occurs_at_cons. }
           apply IH in Hf. now rewrite Hf.
Qed.

(** Without a heading the search finds nothing. *)
Lemma match_index_None (s : jsstring) :
  ~ contains_heading s -> match_index s = None.
Proof.
  intros Hno. destruct (match_index s) as [i|] eqn:E; [|reflexivity].
  exfalso. apply match_index_Some in E as [(h & Hin & Hoc) _].
  apply Hno. now exists h, i.
Qed.

(** A text with a heading has a leftmost one. *)
Lemma contains_heading_first (s : jsstring) :
  contains_heading s -> exists i, first_heading_at s i.
Proof.
  intros (h & i & Hin & Hoc).
  destruct (match_index s) as [k|] eqn:E.
  - exists k. now apply match_index_Some.
  - exfalso. revert i Hoc E. induction s as [|c s IH]; intros i Hoc E.
    + now apply no_heading_in_nil in Hoc.
    + rewrite match_index_cons in E.
      destruct (heading_here (c :: s)) eqn:Hh; [discriminate|].
      destruct i as [|i].
      * assert (heading_here (c :: s) = true) as E'
          by (apply heading_here_iff; now exists h).
        congruence.
      * apply occurs_at_tail in Hoc.
        destruct (match_index s) eqn:Hm; [discriminate|].
        now apply (IH i).
Qed.

Lemma numbered_marker (t : jsstring) :
  numbered t = true -> item_marker t.
Proof.
  unfold numbered. destruct t as [|c t]; [discriminate|].
  intros H. apply andb_true_iff in H as [Hc Hdot].
  destruct (dropWhile_split is_digit (c :: t)) as (run & Hs & Hrun).
  destruct (dropWhile is_digit (c :: t)) as [|d rest] eqn:Hd; [discriminate|].
  apply N.eqb_eq in Hdot. subst d.
  right; right. exists run, rest. repeat split; try assumption.
  intros ->. simpl in Hs. injection Hs as -> _. discriminate Hc.
Qed.

(** What the filter of the source accepts starts with an item marker. *)
Lemma is_item_marker (line : jsstring) :
  is_item line = true -> item_marker (trim line).
Proof.
  unfold is_item. intros H.
  apply orb_true_iff in H as [H|H]; [apply orb_true_iff in H as [H|H]|].
  - left. apply startsWith_app in H as [r Hr]. now exists r.
  - right; left. apply startsWith_app in H as [r Hr]. now exists r.
  - now apply numbered_marker.
Qed.

End SummarizerFacts.

Section SummarizerClaims.

Import Summarizer.

Lemma dropWhile_digits_dot (ds r : jsstring) :
  Forall (fun c => is_digit c = true) ds ->
  dropWhile is_digit (ds ++ 46%N :: r) = 46%N :: r.
Proof.
  induction 1 as [|c ds Hc _ IH]; simpl.
  - reflexivity.
  - now rewrite Hc.
Qed.

Lemma marker_is_item (line : jsstring) :
  item_marker (trim line) -> is_item line = true.
Proof.
  unfold is_item. intros [(r & ->) | [(r & ->) | (ds & r & Hne & Hds & ->)]].
  - reflexivity.
  - reflexivity.
  - apply orb_true_iff. right. unfold numbered.
    rewrite dropWhile_digits_dot by assumption.
    destruct ds as [|c ds]; [congruence|].
    simpl. inversion Hds as [|? ? Hc _]. now rewrite Hc.
Qed.

Lemma no_match_no_heading (s : jsstring) :
  match_index s = None -> ~ contains_heading s.
Proof.
  intros E H. apply contains_heading_first in H as [i Hi].
  apply match_index_Some in Hi. congruence.
Qed.

Example countWords_irregular_whitespace :
  countWords (lit "one two  three") = 3.
Proof. reflexivity. Qed.

(** C8: for the response "Paragraph one.\n\nKey Points:\n- Point A\n- Point B"
    the summary is "Paragraph one." and the key points are "Point A" and
    "Point B"; and for every response that contains none of the heading
    phrases, in whatever case, the summary is the whole response and the key
    points are absent. *)
Theorem extractKeyPoints_parses :
  extractKeyPoints sample_response
  = (lit "Paragraph one.", Some [lit "Point A"; lit "Point B"])
  /\ forall text,
       ~ contains_heading text -> extractKeyPoints text = (text, None).
Proof.
  split.
  - vm_compute. reflexivity.
  - intros text Hno. unfold extractKeyPoints.
    now rewrite (match_index_None text Hno).
Qed.

Lemma extractKeyPoints_parses_witness :
  extractKeyPoints (lit "Only a paragraph, no list.")
  = (lit "Only a paragraph, no list.", None).
Proof.
  apply (proj2 extractKeyPoints_parses).
  apply no_match_no_heading. vm_compute. reflexivity.
Defined.

(** C10: when the leftmost heading phrase of a response stands at index [i]
    and no line after the heading line starts (once trimmed, as the code
    reads it) with a dash, a bullet or digits and a dot, the key points are
    absent, not an empty list, and the summary is the trimmed text before
    the heading: the heading and all that follows it are dropped. *)
Theorem extractKeyPoints_heading_without_items (text : jsstring) (i : nat) :
  first_heading_at text i ->
  (forall line,
      In line (section_lines (skipn i text)) -> ~ item_marker (trim line)) ->
  extractKeyPoints text = (trim (firstn i text), None).
Proof.
  intros Hfirst Hlines. unfold extractKeyPoints.
  apply match_index_Some in Hfirst. rewrite Hfirst.
  replace (filter is_item (section_lines (skipn i text))) with (@nil jsstring).
  - reflexivity.
  - symmetry. induction (section_lines (skipn i text)) as [|l ls IH].
    + reflexivity.
    + simpl. destruct (is_item l) eqn:El.
      * exfalso. apply (Hlines l); [now left | now apply is_item_marker].
      * apply IH. intros line Hin. apply Hlines. now right.
Qed.

Lemma extractKeyPoints_heading_without_items_witness :
  extractKeyPoints heading_only_response = (lit "Intro text.", None).
Proof.
  apply (extractKeyPoints_heading_without_items heading_only_response 12).
  - apply match_index_Some. vm_compute. reflexivity.
  - intros line Hin Hm. apply marker_is_item in Hm.
    vm_compute in Hin. destruct Hin as [<- | []].
    vm_compute in Hm. discriminate Hm.
Defined.

Lemma retry_loop_all_fail (ai : nat -> jsstring -> ai_outcome)
    (prompt : jsstring) (owc : nat) :
  always_fails ai ->
  forall fuel st,
    (Z.to_nat (maxRetries - retries st) < fuel)%nat ->
    exists ex, retry_loop ai fuel prompt owc st = Some ex
               /\ match ex with Returned _ _ => False | _ => True end.
Proof.
  intros Hfail. induction fuel as [|fuel IH]; intros st Hfuel; [lia|].
  simpl. destruct (retries st <? maxRetries)%Z eqn:Hlt.
  - destruct (Hfail (calls st) prompt) as [err ->].
    destruct err as [|m].
    + eexists. split; [reflexivity | exact I].
    + apply IH. cbn [retries]. apply Z.ltb_lt in Hlt.
      unfold maxRetries in *. lia.
  - eexists. split; [reflexivity | exact I].
Qed.

(** C7: when every call of the service fails, [summarize] still resolves:
    with the fixed failure message as summary, no key points, a summary word
    count of 0 and the word count of the input as original word count. *)
Theorem summarize_degrades (ai : nat -> jsstring -> ai_outcome)
    (fuel : nat) (cached : bool) (apiKey : option jsstring)
    (content : jsstring) (options : SummarizerOptions) :
  always_fails ai ->
  (3 < fuel)%nat ->
  exists r tr,
    summarize ai fuel cached apiKey content options = Some (r, tr)
    /\ summary r = lit "Failed to generate summary. Please try again later."
    /\ keyPoints r = None
    /\ summaryWordCount r = 0
    /\ originalWordCount r = countWords content.
Proof.
  intros Hfail Hfuel. unfold summarize.
  destruct (cached || truthy apiKey).
  - destruct (retry_loop_all_fail ai (generatePrompt content options)
                (countWords content) Hfail fuel
                {| retries := 0; error := None; calls := 0; trace := [] |})
      as (ex & -> & Hex).
    + cbn [retries]. unfold maxRetries. simpl. lia.
    + destruct ex as [r tr | tr | st]; [contradiction | |];
        do 2 eexists; (split; [reflexivity|]); repeat split.
  - do 2 eexists. split; [reflexivity|]. repeat split.
Qed.

Lemma summarize_degrades_witness :
  exists r tr,
    summarize (fun _ _ => AiRejected (ThrownError (lit "503"))) 4 false
      (Some (lit "key")) (lit "some article text")
      {| length := lit "short"; includeKeyPoints := true |} = Some (r, tr)
    /\ summary r = lit "Failed to generate summary. Please try again later."
    /\ keyPoints r = None
    /\ summaryWordCount r = 0
    /\ originalWordCount r = countWords (lit "some article text").
Proof.
  apply summarize_degrades.
  - intros n p. eexists. reflexivity.
  - lia.
Defined.

End SummarizerClaims.

(** ** Extractor *)

Section ExtractorFacts.

Import Extractor.

Lemma text_first (e : located) (rest : selection) :
  text (first (e :: rest)) = node_text (snd e).
Proof. unfold first, text. simpl. apply app_nil_r. Qed.

(** The title loop stops at the first selector that matches anything. *)
Lemma title_scan_first_match (doc : node) (pre : list selector) (s : selector)
    (post : list selector) (e : located) (rest : selection) :
  (forall s', In s' pre -> select [s'] doc = []) ->
  select [s] doc = e :: rest ->
  title_scan (pre ++ s :: post) doc = Some (trim (node_text (snd e))).
Proof.
  intros Hpre Hs. induction pre as [|s0 pre IH]; simpl.
  - rewrite Hs. now rewrite <- (text_first e rest).
  - rewrite (Hpre s0) by now left. simpl.
    apply IH. intros s' Hin. apply Hpre. now right.
Qed.

Lemma title_scan_no_match (doc : node) (sels : list selector) :
  (forall s, In s sels -> select [s] doc = []) ->
  title_scan sels doc = None.
Proof.
  induction sels as [|s sels IH]; intros H; simpl.
  - reflexivity.
  - rewrite (H s) by now left. simpl. apply IH.
    intros s' Hin. apply H. now right.
Qed.

Lemma content_scan_skip (doc : node) (s : selector) (rest : list selector) :
  ~ qualifies doc s ->
  content_scan (s :: rest) doc = content_scan rest doc.
Proof.
  intros Hno. simpl. destruct (select [s] doc) as [|e sel] eqn:Hs.
  - reflexivity.
  - fold (first (e :: sel)). rewrite text_first.
    destruct (Nat.ltb_spec 200 (List.length (trim (node_text (snd e)))))
      as [Hlong|Hshort].
    + exfalso. apply Hno. now exists e, sel.
    + reflexivity.
Qed.

Lemma content_scan_first_qualifying (doc : node) (pre : list selector)
    (s : selector) (post : list selector) (e : located) (rest : selection) :
  (forall s', In s' pre -> ~ qualifies doc s') ->
  select [s] doc = e :: rest ->
  200 < List.length (trim (node_text (snd e))) ->
  content_scan (pre ++ s :: post) doc = Some [e].
Proof.
  intros Hpre Hs Hlong. induction pre as [|s0 pre IH].
  - simpl. rewrite Hs. fold (first (e :: rest)). rewrite text_first.
    apply Nat.ltb_lt in Hlong. now rewrite Hlong.
  - simpl app. rewrite content_scan_skip by (apply Hpre; now left).
    apply IH. intros s' Hin. apply Hpre. now right.
Qed.

Lemma content_scan_none (doc : node) (sels : list selector) :
  (forall s, In s sels -> ~ qualifies doc s) ->
  content_scan sels doc = None.
Proof.
  induction sels as [|s sels IH]; intros H.
  - reflexivity.
  - rewrite content_scan_skip by (apply H; now left).
    apply IH. intros s' Hin. apply H. now right.
Qed.

(** *** The sort and its first entry *)

Lemma insert_cons (a b : container) (l : list container) :
  insert a (b :: l) =
  if Nat.ltb (count a) (count b) then b :: insert a l else a :: b :: l.
Proof. reflexivity. Qed.

(** The first entry of the sorted list is the first one of greatest count
    in the list as it was. *)
Lemma sort_head (l : list container) (best : container)
    (rest : list container) :
  sort l = best :: rest ->
  exists before after,
    l = before ++ best :: after
    /\ (forall c, In c before -> count c < count best)
    /\ (forall c, In c after -> count c <= count best).
Proof.
  revert best rest. induction l as [|a l IH]; intros best rest Hs.
  - discriminate.
  - simpl in Hs. destruct (sort l) as [|b sl] eqn:Hsl.
    + simpl in Hs. injection Hs as <- <-.
      destruct l as [|a' l'].
      * exists [], []. repeat split; intros c [].
      * exfalso. simpl in Hsl. destruct (sort l'); simpl in Hsl;
          [discriminate | destruct (count a' <? count c); discriminate].
    + destruct (IH b sl eq_refl) as (before & after & -> & Hb & Ha).
      rewrite insert_cons in Hs.
      destruct (Nat.ltb_spec (count a) (count b)) as [Hlt|Hge].
      * injection Hs as <- <-.
        exists (a :: before), after. repeat split.
        -- intros c [<-|Hin]; [assumption | now apply Hb].
        -- assumption.
      * injection Hs as <- <-.
        exists [], (before ++ b :: after). repeat split.
        -- intros c [].
        -- intros c Hin. apply in_app_or in Hin as [Hin|[<-|Hin]].
           ++ apply Hb in Hin. lia.
           ++ assumption.
           ++ apply Ha in Hin. lia.
Qed.

Lemma sort_nil (l : list container) : sort l = [] -> l = [].
Proof.
  destruct l as [|a l]; [reflexivity|]. simpl.
  destruct (sort l) as [|b sl]; simpl; [discriminate|].
  destruct (count a <? count b); discriminate.
Qed.

Lemma filter_eq_app_cons {A : Type} (f : A -> bool) (l l1' : list A) (b : A)
    (l2' : list A) :
  filter f l = l1' ++ b :: l2' ->
  exists l1 l2,
    l = l1 ++ b :: l2 /\ filter f l1 = l1' /\ filter f l2 = l2' /\ f b = true.
Proof.
  revert l1'. induction l as [|x l IH]; intros l1' H; simpl in H.
  - destruct l1'; discriminate.
  - destruct (f x) eqn:Hx.
    + destruct l1' as [|y l1']; simpl in H; injection H as -> H.
      * exists [], l. now repeat split.
      * destruct (IH _ H) as (l1 & l2 & -> & H1 & H2 & Hb).
        exists (y :: l1), l2. repeat split; try assumption.
        simpl. now rewrite Hx, H1.
    + destruct (IH _ H) as (l1 & l2 & -> & H1 & H2 & Hb).
      exists (x :: l1), l2. repeat split; try assumption.
      simpl. now rewrite Hx.
Qed.

End ExtractorFacts.

Section ExtractorClaims.

Import Extractor.

(** C4, counterexample: on a page whose first top-level heading is empty
    and whose [title] element reads "Doc Title", no selector yields a
    non-empty text, yet the title is the host name, not "Doc Title". *)
Lemma empty_heading_skips_title_element :
  ~ empty_headings_fall_back_to_title.
Proof.
  intros H.
  specialize (H example_host empty_heading_doc (lit "https://example.com/a")).
  assert (resolveTitle example_host empty_heading_doc
            (lit "https://example.com/a") = Some (lit "example.com")) as E
    by (vm_compute; reflexivity).
  rewrite E in H.
  assert (Some (lit "example.com") = Some (lit "Doc Title")) as Bad.
  { rewrite H.
    - vm_compute. reflexivity.
    - intros s Hin. unfold titleSelectors in Hin. simpl in Hin.
      repeat (destruct Hin as [<- | Hin]; [vm_compute; reflexivity|]).
      destruct Hin.
    - vm_compute. discriminate. }
  vm_compute in Bad. discriminate Bad.
Qed.

(** C4, amended: the first selector of the list that matches any element
    decides: the title is the trimmed text of the first element it matches,
    and the host name of the URL when that text is empty; when no selector
    matches, the title is the trimmed text of the [title] element, and the
    host name when that is empty. *)
Theorem resolveTitle_first_matching_selector
    (hostname : jsstring -> option jsstring) (doc : node) (url : jsstring) :
  (forall pre s post e rest,
      titleSelectors = pre ++ s :: post ->
      (forall s', In s' pre -> select [s'] doc = []) ->
      select [s] doc = e :: rest ->
      resolveTitle hostname doc url
      = if nonempty (trim (node_text (snd e)))
        then Some (trim (node_text (snd e)))
        else hostname url)
  /\ ((forall s, In s titleSelectors -> select [s] doc = []) ->
      resolveTitle hostname doc url
      = if nonempty (trim (text (select [[tag "title"]] doc)))
        then Some (trim (text (select [[tag "title"]] doc)))
        else hostname url).
Proof.
  split.
  - intros pre s post e rest Hsplit Hpre Hs.
    unfold resolveTitle, extractTitle. rewrite Hsplit.
    rewrite (title_scan_first_match doc pre s post e rest Hpre Hs).
    reflexivity.
  - intros Hnone. unfold resolveTitle, extractTitle.
    rewrite (title_scan_no_match doc titleSelectors Hnone).
    destruct (nonempty (trim (text (select [[tag "title"]] doc)))) eqn:E.
    + simpl. now rewrite E.
    + reflexivity.
Qed.

Lemma resolveTitle_first_matching_selector_witness :
  resolveTitle example_host article_heading_doc (lit "https://example.com/a")
  = Some (lit "Story").
Proof.
  refine (proj1 (resolveTitle_first_matching_selector example_host
                   article_heading_doc (lit "https://example.com/a"))
            (firstn 4 titleSelectors) [tag "article"; tag "h1"]
            (skipn 5 titleSelectors)
            ([1; 1; 0], el "h1" [txt " Story "]) [] _ _ _).
  - reflexivity.
  - intros s' Hin. simpl in Hin.
    repeat (destruct Hin as [<- | Hin]; [vm_compute; reflexivity|]).
    destruct Hin.
  - vm_compute. reflexivity.
Defined.

(** C5, counterexample: with a short article before a long one, the
    [article] selector matches an element of more than 200 characters, but
    only its first match is looked at, and the result is the body. *)
Lemma long_second_article_is_not_selected :
  ~ any_long_match_is_selected.
Proof.
  intros H.
  destruct (H two_articles_doc [tag "article"]
              ([1; 1], el "article" [el "p" [long_text]]))
    as (s' & e' & Hres & Hin & Hsel & _).
  - now left.
  - vm_compute. right. left. reflexivity.
  - vm_compute. lia.
  - assert (findMainContent two_articles_doc
            = select [[tag "body"]] two_articles_doc) as E
      by (vm_compute; reflexivity).
    rewrite E in Hres. vm_compute in Hres. injection Hres as <-.
    unfold contentSelectors in Hin. simpl in Hin.
    repeat (destruct Hin as [<- | Hin];
            [vm_compute in Hsel;
             repeat (destruct Hsel as [Hsel | Hsel]; [discriminate Hsel|]);
             destruct Hsel|]).
    destruct Hin.
Qed.

(** C5, amended: when, for some selector of the list, the first element it
    matches has more than 200 characters of trimmed text, and no earlier
    selector of the list has such a first match, the result is that element;
    the selector loop returns, and the paragraph counts are not looked at. *)
Theorem findMainContent_semantic_first (doc : node) (pre : list selector)
    (s : selector) (post : list selector) (e : located) (rest : selection) :
  contentSelectors = pre ++ s :: post ->
  (forall s', In s' pre -> ~ qualifies doc s') ->
  select [s] doc = e :: rest ->
  200 < List.length (trim (node_text (snd e))) ->
  content_scan contentSelectors doc = Some [e]
  /\ findMainContent doc = [e].
Proof.
  intros Hsplit Hpre Hs Hlong.
  assert (content_scan contentSelectors doc = Some [e]) as E.
  { rewrite Hsplit.
    now apply (content_scan_first_qualifying doc pre s post e rest). }
  split; [assumption|]. unfold findMainContent. now rewrite E.
Qed.

Lemma findMainContent_semantic_first_witness :
  content_scan contentSelectors dense_div_doc
  = Some [([1; 1], el "article" [el "p" [long_text]])]
  /\ findMainContent dense_div_doc
     = [([1; 1], el "article" [el "p" [long_text]])].
Proof.
  apply (findMainContent_semantic_first dense_div_doc [] [tag "article"]
           (skipn 1 contentSelectors)
           ([1; 1], el "article" [el "p" [long_text]]) []).
  - reflexivity.
  - intros s' [].
  - vm_compute. reflexivity.
  - vm_compute. lia.
Defined.

(** C6: when no selector of the list qualifies, and some block (a [div],
    [section] or [main] below the body) has more than 2 paragraphs below it,
    the result is the block of greatest paragraph count, the first such in
    document order: every block before it has fewer paragraphs, none after
    it has more.  When no block has more than 2 paragraphs, the result is
    the body. *)
Theorem findMainContent_density (doc : node) :
  (forall s, In s contentSelectors -> ~ qualifies doc s) ->
  ((exists e, In e (blocks doc) /\ 2 < paragraphCount doc e) ->
   exists before best after,
     blocks doc = before ++ best :: after
     /\ findMainContent doc = [best]
     /\ 2 < paragraphCount doc best
     /\ (forall e, In e before -> paragraphCount doc e < paragraphCount doc best)
     /\ (forall e, In e after -> paragraphCount doc e <= paragraphCount doc best))
  /\ ((forall e, In e (blocks doc) -> paragraphCount doc e <= 2) ->
      findMainContent doc = select [[tag "body"]] doc).
Proof.
  intros Hnone.
  pose (mk := fun e => {| element := e; count := paragraphCount doc e |}).
  assert (paragraphContainers doc
          = filter (fun c => Nat.ltb 2 (count c)) (map mk (blocks doc))) as Hpc
    by reflexivity.
  assert (findMainContent doc = density_fallback doc) as Hfb.
  { unfold findMainContent.
    now rewrite (content_scan_none doc contentSelectors Hnone). }
  split.
  - intros (e0 & Hin0 & Hc0).
    destruct (sort (paragraphContainers doc)) as [|b sl] eqn:Hsort.
    { apply sort_nil in Hsort. exfalso.
      assert (In (mk e0) (paragraphContainers doc)) as Hin.
      { rewrite Hpc. apply filter_In. split.
        - now apply in_map.
        - simpl. now apply Nat.ltb_lt. }
      rewrite Hsort in Hin. destruct Hin. }
    destruct (sort_head _ _ _ Hsort) as (fb & fa & Hf & Hfb1 & Hfa1).
    rewrite Hpc in Hf.
    apply filter_eq_app_cons in Hf as (m1 & m2 & Hm & Hm1 & Hm2 & Hb).
    apply map_eq_app in Hm as (before & tl & Hbl & Hbefore & Htl).
    apply map_eq_cons in Htl as (best & after & -> & Hbest & Hafter).
    apply Nat.ltb_lt in Hb.
    assert (count b = paragraphCount doc best) as Hcb by (now subst b).
    exists before, best, after. repeat split.
    + assumption.
    + rewrite Hfb. unfold density_fallback. rewrite Hsort. now subst b.
    + lia.
    + intros e Hin.
      destruct (Nat.ltb_spec 2 (paragraphCount doc e)) as [Hbig|Hsmall]; [|lia].
      rewrite <- Hcb. apply (Hfb1 (mk e)).
      rewrite <- Hm1, <- Hbefore. apply filter_In. split.
      * now apply in_map.
      * simpl. now apply Nat.ltb_lt.
    + intros e Hin.
      destruct (Nat.ltb_spec 2 (paragraphCount doc e)) as [Hbig|Hsmall]; [|lia].
      rewrite <- Hcb. apply (Hfa1 (mk e)).
      rewrite <- Hm2, <- Hafter. apply filter_In. split.
      * now apply in_map.
      * simpl. now apply Nat.ltb_lt.
  - intros Hsmall. rewrite Hfb. unfold density_fallback.
    replace (paragraphContainers doc) with (@nil container); [reflexivity|].
    symmetry. rewrite Hpc. revert Hsmall.
    generalize (blocks doc) as l.
    induction l as [|e l IH]; intros Hsmall; [reflexivity|].
    simpl. destruct (Nat.ltb_spec 2 (paragraphCount doc e)) as [Hbig|_].
    + specialize (Hsmall e (or_introl eq_refl)). lia.
    + apply IH. intros e' Hin. apply Hsmall. now right.
Qed.

Lemma findMainContent_density_witness :
  exists before best after,
    blocks blocks_doc = before ++ best :: after
    /\ findMainContent blocks_doc = [best]
    /\ 2 < paragraphCount blocks_doc best
    /\ (forall e, In e before ->
                  paragraphCount blocks_doc e < paragraphCount blocks_doc best)
    /\ (forall e, In e after ->
                  paragraphCount blocks_doc e <= paragraphCount blocks_doc best).
Proof.
  refine (proj1 (findMainContent_density blocks_doc _) _).
  - intros s Hin (e & rest & Hsel & _). unfold contentSelectors in Hin.
    simpl in Hin.
    repeat (destruct Hin as [<- | Hin];
            [vm_compute in Hsel; discriminate Hsel|]).
    destruct Hin.
  - exists ([1; 2], el "div" [par; par; par; par]). split.
    + vm_compute. right. right. left. reflexivity.
    + vm_compute. lia.
Defined.

(** Of two blocks with 4 paragraphs each, the first one is taken. *)
Example blocks_doc_tie :
  findMainContent blocks_doc
  = [([1; 1], el "section" [par; par; par; par])].
Proof. vm_compute. reflexivity. Qed.

End ExtractorClaims.

(** ** Fetcher *)

Section ScraperFacts.

Import Errors Scraper.
Local Open Scope Z_scope.

Lemma requests_app (a b : list event) :
  requests (a ++ b) = (requests a + requests b)%nat.
Proof.
  induction a as [|[t|ms] a IH]; simpl; [reflexivity | now rewrite IH | exact IH].
Qed.

Lemma delays_app (a b : list event) : delays (a ++ b) = delays a ++ delays b.
Proof.
  induction a as [|[t|ms] a IH]; simpl; [reflexivity | exact IH | now rewrite IH].
Qed.

Lemma requests_retry_steps (target : jsstring) (k : Z) (n : nat) :
  requests (retry_steps target k n) = n.
Proof.
  revert k; induction n as [|n IH]; intros k; simpl; [reflexivity|].
  now rewrite IH.
Qed.

Lemma delays_retry_steps (target : jsstring) (k : Z) (n : nat) :
  delays (retry_steps target k n)
  = map (fun i => 2 ^ (k + Z.of_nat i) * 1000) (seq 1 n).
Proof.
  revert k; induction n as [|n IH]; intros k; [reflexivity|].
  cbn [retry_steps delays seq map]. f_equal.
  rewrite IH, <- (seq_shift n 1), map_map.
  apply map_ext. intros i. do 2 f_equal. lia.
Qed.

Lemma delays_increasing (k : Z) (n start : nat) :
  0 <= k ->
  StronglySorted Z.lt
    (map (fun i => 2 ^ (k + Z.of_nat i) * 1000) (seq start n)).
Proof.
  intros Hk. revert start. induction n as [|n IH]; intros start; simpl.
  - constructor.
  - constructor; [apply IH|].
    apply Forall_forall. intros d Hd.
    apply in_map_iff in Hd as (i & <- & Hi). apply in_seq in Hi.
    apply Z.mul_lt_mono_pos_r; [lia|].
    apply Z.pow_lt_mono_r; lia.
Qed.

Section Loop.

Variable net : nat -> outcome.
Variable cfg : ScraperOptions.
Variable target : jsstring.

(** The loop ends within [retries + 1] rounds, and what it has done is a
    run of rejected requests with their waits and one last request. *)
Lemma retry_loop_runs (fuel : nat) (st : loop_state) :
  attempts st <= retries cfg ->
  0 <= attempts st ->
  (Z.to_nat (retries cfg - attempts st) < fuel)%nat ->
  exists st' n,
    retry_loop net fuel cfg target st = Some st'
    /\ attempts st + Z.of_nat n <= retries cfg
    /\ trace st' = trace st ++ retry_steps target (attempts st) n
                            ++ [EvRequest target].
Proof.
  revert st. induction fuel as [|fuel IH]; intros st Hle H0 Hfuel; [lia|].
  cbn [retry_loop]. apply Z.leb_le in Hle as Hle'. rewrite Hle'.
  destruct (net (calls st)) as [r|e].
  - eexists _, 0%nat.
    split; [reflexivity|]. split; [lia | reflexivity].
  - destruct (Z.gtb_spec (attempts st + 1) (retries cfg)) as [Hgt|Hngt].
    + eexists _, 0%nat.
      split; [reflexivity|]. split; [lia | reflexivity].
    + edestruct (IH {| response := None;
                       attempts := attempts st + 1;
                       lastError := Some e;
                       calls := S (calls st);
                       trace := (trace st ++ [EvRequest target])
                                ++ [EvSleep (2 ^ (attempts st + 1) * 1000)] |})
        as (st' & n & Hrun & Hn & Htr).
      * cbn [attempts]. lia.
      * cbn [attempts]. lia.
      * cbn [attempts]. lia.
      * exists st', (S n). cbn [attempts trace] in *.
        split; [exact Hrun|]. split; [lia|].
        rewrite Htr. cbn [retry_steps]. rewrite <- !app_assoc. reflexivity.
Qed.

(** When the first [n] requests are rejected and the next one is answered,
    the loop ends with that answer and asks no more. *)
Lemma retry_loop_answered (n : nat) (r : Response) (fuel : nat)
    (st : loop_state) :
  (forall j, (j < n)%nat -> exists e, net (calls st + j) = Rejected e) ->
  net (calls st + n) = Resolved r ->
  attempts st + Z.of_nat n <= retries cfg ->
  (n < fuel)%nat ->
  exists st',
    retry_loop net fuel cfg target st = Some st'
    /\ response st' = Some r
    /\ trace st' = trace st ++ retry_steps target (attempts st) n
                            ++ [EvRequest target].
Proof.
  revert fuel st. induction n as [|n IH]; intros fuel st Hrej Hres Hle Hfuel;
    (destruct fuel as [|fuel]; [lia|]); cbn [retry_loop].
  - assert ((attempts st <=? retries cfg) = true) as ->
      by (apply Z.leb_le; lia).
    rewrite Nat.add_0_r in Hres. rewrite Hres.
    eexists. split; [reflexivity|]. split; reflexivity.
  - assert ((attempts st <=? retries cfg) = true) as ->
      by (apply Z.leb_le; lia).
    destruct (Hrej 0%nat) as [e He]; [lia|].
    rewrite Nat.add_0_r in He. rewrite He.
    assert ((attempts st + 1 >? retries cfg) = false) as ->
      by (rewrite Z.gtb_ltb; apply Z.ltb_ge; lia).
    edestruct (IH fuel
                 {| response := None;
                    attempts := attempts st + 1;
                    lastError := Some e;
                    calls := S (calls st);
                    trace := (trace st ++ [EvRequest target])
                             ++ [EvSleep (2 ^ (attempts st + 1) * 1000)] |})
      as (st' & Hrun & Hresp & Htr).
    + intros j Hj. cbn [calls]. replace (S (calls st) + j)%nat
        with (calls st + S j)%nat by lia. apply Hrej. lia.
    + cbn [calls]. replace (S (calls st) + n)%nat
        with (calls st + S n)%nat by lia. exact Hres.
    + cbn [attempts]. lia.
    + lia.
    + exists st'. cbn [attempts trace] in *.
      split; [exact Hrun|]. split; [exact Hresp|].
      rewrite Htr. cbn [retry_steps]. rewrite <- !app_assoc. reflexivity.
Qed.

End Loop.

Lemma http_has_scheme (rest : jsstring) :
  has_scheme (lit "http://" ++ rest) = true.
Proof. reflexivity. Qed.

Lemma https_has_scheme (rest : jsstring) :
  has_scheme (lit "https://" ++ rest) = true.
Proof. reflexivity. Qed.

End ScraperFacts.

Section ScraperClaims.

Import Errors Scraper.
Local Open Scope Z_scope.

Section Platform.

Variable parse_url : jsstring -> option jsstring.
Variable page_title : jsstring -> option jsstring.
Variable page_metadata : jsstring -> list (jsstring * jsstring).
Variable net : nat -> outcome.

(** C1: with [retries = r], a fetch makes at most [r + 1] requests; it
    waits between two consecutive requests and nowhere else, the [k]-th
    wait being [2 ^ k] seconds (2, 4, 8, ... seconds, in milliseconds), so
    that the waits are strictly increasing. *)
Theorem scrapeUrl_retries_honored (fuel : nat) (cfg : ScraperOptions)
    (u : jsstring) :
  0 <= retries cfg ->
  (Z.to_nat (retries cfg) < fuel)%nat ->
  exists res tr,
    scrapeUrl parse_url page_title page_metadata net fuel cfg u
    = Some (res, tr)
    /\ Z.of_nat (requests tr) <= retries cfg + 1
    /\ (tr = [] \/ exists target n, tr = attempts_trace target n)
    /\ delays tr
       = map (fun k => 2 ^ Z.of_nat k * 1000) (seq 1 (requests tr - 1))
    /\ StronglySorted Z.lt (delays tr).
Proof.
  intros Hr Hfuel. unfold scrapeUrl.
  destruct (validateUrl parse_url u) as [target|e].
  - destruct (retry_loop_runs net cfg target fuel
                {| response := None; attempts := 0; lastError := None;
                   calls := 0; trace := [] |})
      as (st' & n & Hrun & Hn & Htr); cbn [attempts trace] in *; try lia.
    rewrite Hrun. cbn [app] in Htr.
    assert (requests (trace st') = S n) as Hreq.
    { rewrite Htr, requests_app, requests_retry_steps. simpl. lia. }
    assert (delays (trace st')
            = map (fun k => 2 ^ Z.of_nat k * 1000) (seq 1 n)) as Hdel.
    { rewrite Htr, delays_app, delays_retry_steps. simpl.
      now rewrite app_nil_r. }
    destruct (response st') as [r|]; [destruct (is_html r)|];
      (eexists _, (trace st'); split; [reflexivity|];
       split; [lia|]; split; [right; now exists target, n|]; split;
       [ rewrite Hreq; simpl; now rewrite Nat.sub_0_r
       | rewrite Hdel; apply (delays_increasing 0 n 1); lia ]).
  - exists (inr e), []. repeat split; try (simpl; lia).
    + now left.
    + constructor.
Qed.

(** C2, amended: an answer whose content type is not HTML ends the fetch
    at once.  When [n] requests were rejected and the next one is answered
    with such a content type, no request and no wait follows the answer,
    and the fetch fails with the network error "Invalid response from
    server", whose context holds the URL and the content type. *)
Theorem scrapeUrl_non_html_not_retried (fuel : nat) (cfg : ScraperOptions)
    (u target : jsstring) (n : nat) (r : Response) :
  parse_url (candidate u) = Some target ->
  (forall j, (j < n)%nat -> exists e, net j = Rejected e) ->
  net n = Resolved r ->
  is_html r = false ->
  Z.of_nat n <= retries cfg ->
  (n < fuel)%nat ->
  scrapeUrl parse_url page_title page_metadata net fuel cfg u
  = Some (inr (createNetworkError INVALID_RESPONSE
                 (Some (lit "Response is not HTML content"))
                 [(lit "url", CtxString target);
                  (lit "contentType", CtxString (or_else (content_type r) []))]),
          attempts_trace target n).
Proof.
  intros Hparse Hrej Hres Hhtml Hn Hfuel.
  unfold scrapeUrl, validateUrl. rewrite Hparse.
  destruct (retry_loop_answered net cfg target n r fuel
              {| response := None; attempts := 0; lastError := None;
                 calls := 0; trace := [] |})
    as (st' & Hrun & Hresp & Htr); cbn [calls attempts trace] in *;
    try assumption.
  rewrite Hrun, Hresp, Hhtml. cbn [app] in Htr. now rewrite Htr.
Qed.

(** C3: a string without a scheme is handed to the URL parser with
    [https://] before it; when the parser refuses the string it is handed,
    the call fails with the network error "Invalid URL format", whose
    context holds that string; and the call succeeds only with what the
    parser returned. *)
Theorem validateUrl_normalizes_or_rejects (u : jsstring) :
  (has_scheme u = false -> candidate u = lit "https://" ++ u)
  /\ (parse_url (candidate u) = None ->
      exists e,
        validateUrl parse_url u = inr e
        /\ type e = NETWORK
        /\ message e = network_message INVALID_URL
        /\ context e = [(lit "url", CtxString (candidate u))])
  /\ (forall out,
        validateUrl parse_url u = inl out ->
        parse_url (candidate u) = Some out).
Proof.
  split; [|split].
  - intros Hno. unfold candidate.
    destruct (startsWith (lit "http://") u) eqn:H1.
    + apply startsWith_app in H1 as [rest ->].
      rewrite http_has_scheme in Hno. discriminate.
    + destruct (startsWith (lit "https://") u) eqn:H2; [|reflexivity].
      apply startsWith_app in H2 as [rest ->].
      rewrite https_has_scheme in Hno. discriminate.
  - intros Hfail. unfold validateUrl. rewrite Hfail.
    eexists. split; [reflexivity|]. now repeat split.
  - intros out. unfold validateUrl.
    destruct (parse_url (candidate u)); [now intros [= ->] | discriminate].
Qed.

End Platform.

Lemma scrapeUrl_retries_honored_witness :
  exists res tr,
    scrapeUrl example_parse_url no_title no_metadata silent_host 4
      example_config (lit "example.com") = Some (res, tr)
    /\ Z.of_nat (requests tr) <= retries example_config + 1
    /\ (tr = [] \/ exists target n, tr = attempts_trace target n)
    /\ delays tr
       = map (fun k => 2 ^ Z.of_nat k * 1000) (seq 1 (requests tr - 1))
    /\ StronglySorted Z.lt (delays tr).
Proof.
  apply scrapeUrl_retries_honored; simpl; lia.
Defined.

Example silent_host_trace :
  option_map snd
    (scrapeUrl example_parse_url no_title no_metadata silent_host 4
       example_config (lit "example.com"))
  = Some [EvRequest (lit "https://example.com"); EvSleep 2000;
          EvRequest (lit "https://example.com"); EvSleep 4000;
          EvRequest (lit "https://example.com"); EvSleep 8000;
          EvRequest (lit "https://example.com")].
Proof. vm_compute. reflexivity. Qed.

(** C2, counterexample: with 3 retries and a server that answers with
    JSON, the fetch makes one request, waits for nothing and fails. *)
Lemma non_html_fails_after_one_request :
  ~ non_html_is_retried.
Proof.
  intros H.
  destruct (H example_parse_url no_title no_metadata json_server 4%nat
              example_config
              (lit "example.com") (lit "https://example.com"))
    as (res & tr & Hrun & Hreq).
  - reflexivity.
  - intros n. exists json_response. split; reflexivity.
  - reflexivity.
  - simpl. lia.
  - vm_compute in Hrun. injection Hrun as <- <-. simpl in Hreq. lia.
Qed.

Lemma scrapeUrl_non_html_not_retried_witness :
  scrapeUrl example_parse_url no_title no_metadata flaky_json_server 4
    example_config (lit "example.com")
  = Some (inr (createNetworkError INVALID_RESPONSE
                 (Some (lit "Response is not HTML content"))
                 [(lit "url", CtxString (lit "https://example.com"));
                  (lit "contentType", CtxString (lit "application/json"))]),
          attempts_trace (lit "https://example.com") 2).
Proof.
  apply (scrapeUrl_non_html_not_retried example_parse_url no_title
           no_metadata flaky_json_server 4 example_config (lit "example.com")
           (lit "https://example.com") 2 json_response).
  - reflexivity.
  - intros j Hj. destruct j as [|[|j]]; [eexists; reflexivity.. | lia].
  - reflexivity.
  - reflexivity.
  - simpl. lia.
  - lia.
Defined.

Lemma validateUrl_normalizes_or_rejects_witness :
  candidate (lit "example.com/a b") = lit "https://example.com/a b"
  /\ exists e,
       validateUrl example_parse_url (lit "example.com/a b") = inr e
       /\ type e = NETWORK
       /\ message e = network_message INVALID_URL
       /\ context e = [(lit "url", CtxString (candidate (lit "example.com/a b")))].
Proof.
  destruct (validateUrl_normalizes_or_rejects example_parse_url
              (lit "example.com/a b")) as (Hcand & Hrej & _).
  split.
  - apply Hcand. reflexivity.
  - apply Hrej. reflexivity.
Defined.

End ScraperClaims.

(** ** Formatter *)

Section ConverterClaims.

Import Converter.

Variable turndown : ConverterOptions -> jsstring -> jsstring.
Variable toLocaleDateString : jsstring -> jsstring.

(** C9: rendering the same summary text with the same metadata, date
    included, gives the same document whenever it is done: the document
    does not depend on the clock. *)
Theorem render_deterministic (now1 now2 now1' now2' : jsstring)
    (summaryText : jsstring) (metadata : Metadata) :
  truthy (date metadata) = true ->
  render turndown toLocaleDateString now1 now2 summaryText metadata
  = render turndown toLocaleDateString now1' now2' summaryText metadata.
Proof.
  intros Hdate. unfold render, formatOutput, convertToMarkdown.
  cbn [markdown]. now rewrite Hdate.
Qed.

End ConverterClaims.

Lemma render_deterministic_witness :
  let md := {| Converter.title := Some (lit "T");
               Converter.url := Some (lit "https://example.com/");
               Converter.date := Some (lit "2024-05-01T10:00:00.000Z") |} in
  Converter.render (fun _ s => s) (firstn 10) (lit "2024-05-01T10:00:00.100Z")
    (lit "2024-05-01T10:00:00.200Z") (lit "A summary.") md
  = Converter.render (fun _ s => s) (firstn 10) (lit "2024-05-02T00:00:01.000Z")
      (lit "2024-05-02T00:00:02.000Z") (lit "A summary.") md.
Proof.
  apply render_deterministic. reflexivity.
Defined.

(** Without a date in the metadata, the document carries the day of the
    clock. *)
Example formatOutput_without_date_reads_clock :
  let md := {| Converter.title := Some (lit "T");
               Converter.url := None; Converter.date := None |} in
  Converter.formatOutput (firstn 10) (lit "2024-05-01T23:59:59.000Z")
    (lit "A summary.") md
  <> Converter.formatOutput (firstn 10) (lit "2024-05-02T00:00:01.000Z")
       (lit "A summary.") md.
Proof. vm_compute. discriminate. Qed.

(* ================================================================== *)
(** * Further properties of the code *)
(* ================================================================== *)

(** ** Trimming *)

Lemma dropWhile_head (p : N -> bool) (s : jsstring) (c : N) (r : jsstring) :
  dropWhile p s = c :: r -> p c = false.
Proof.
  induction s as [|a s IH]; simpl; [discriminate|].
  destruct (p a) eqn:Ha; [exact IH|]. now intros [= <- _].
Qed.

Lemma dropWhile_all (p : N -> bool) (s : jsstring) :
  Forall (fun c => p c = true) s -> dropWhile p s = [].
Proof.
  induction 1 as [|c s Hc _ IH]; simpl; [reflexivity|]. now rewrite Hc.
Qed.

Lemma dropWhile_snoc (p : N -> bool) (l : jsstring) (c : N) :
  p c = false -> exists l', dropWhile p (l ++ [c]) = l' ++ [c].
Proof.
  intros Hc. induction l as [|a l [l' IH]]; simpl.
  - rewrite Hc. now exists [].
  - destruct (p a); [now exists l' | now exists (a :: l)].
Qed.

Lemma trimStart_split (s : jsstring) :
  exists ws, s = ws ++ trimStart s /\ Forall (fun c => is_space c = true) ws.
Proof. apply dropWhile_split. Qed.

Lemma trimEnd_split (s : jsstring) :
  exists ws, s = trimEnd s ++ ws /\ Forall (fun c => is_space c = true) ws.
Proof.
  unfold trimEnd.
  destruct (dropWhile_split is_space (rev s)) as (run & Hs & Hrun).
  exists (rev run). split.
  - rewrite <- rev_app_distr, <- Hs. now rewrite rev_involutive.
  - now apply Forall_rev.
Qed.

Lemma trim_split (s : jsstring) :
  exists ws1 ws2,
    s = ws1 ++ trim s ++ ws2
    /\ Forall (fun c => is_space c = true) ws1
    /\ Forall (fun c => is_space c = true) ws2.
Proof.
  destruct (trimStart_split s) as (ws1 & H1 & Hw1).
  destruct (trimEnd_split (trimStart s)) as (ws2 & H2 & Hw2).
  exists ws1, ws2. unfold trim. now rewrite <- H2, <- H1.
Qed.

Lemma trimEnd_cons (c : N) (r : jsstring) :
  is_space c = false -> exists r', trimEnd (c :: r) = c :: r'.
Proof.
  intros Hc. unfold trimEnd. simpl rev.
  destruct (dropWhile_snoc is_space (rev r) c Hc) as [l' ->].
  exists (rev l'). now rewrite rev_app_distr.
Qed.

Lemma trimEnd_last (s r : jsstring) (c : N) :
  trimEnd s = r ++ [c] -> is_space c = false.
Proof.
  unfold trimEnd. intros H.
  apply (f_equal (@rev N)) in H. rewrite rev_involutive, rev_app_distr in H.
  simpl in H. now apply dropWhile_head in H.
Qed.

(** A trimmed string neither starts nor ends with white space. *)
Lemma trim_head (s : jsstring) (c : N) (r : jsstring) :
  trim s = c :: r -> is_space c = false.
Proof.
  unfold trim. destruct (trimStart s) as [|a t] eqn:Ht.
  - discriminate.
  - apply dropWhile_head in Ht as Ha.
    destruct (trimEnd_cons a t Ha) as [r' ->]. now intros [= <- _].
Qed.

Lemma trim_last (s r : jsstring) (c : N) :
  trim s = r ++ [c] -> is_space c = false.
Proof. unfold trim. apply trimEnd_last. Qed.

Lemma trim_cons (c : N) (r : jsstring) :
  is_space c = false -> exists r', trim (c :: r) = c :: r'.
Proof.
  intros Hc. unfold trim, trimStart. simpl. rewrite Hc.
  now apply trimEnd_cons.
Qed.

Lemma trim_fixed (s : jsstring) :
  (forall c r, s = c :: r -> is_space c = false) ->
  (forall r c, s = r ++ [c] -> is_space c = false) ->
  trim s = s.
Proof.
  intros Hhead Hlast. unfold trim, trimStart, trimEnd.
  assert (dropWhile is_space s = s) as ->.
  { destruct s as [|c r]; [reflexivity|]. simpl.
    now rewrite (Hhead c r eq_refl). }
  assert (dropWhile is_space (rev s) = rev s) as ->.
  { destruct (rev s) as [|c r] eqn:Hr; [reflexivity|]. simpl.
    rewrite (Hlast (rev r) c); [reflexivity|].
    rewrite <- (rev_involutive s), Hr. reflexivity. }
  apply rev_involutive.
Qed.

Lemma trim_idempotent (s : jsstring) : trim (trim s) = trim s.
Proof.
  apply trim_fixed.
  - intros c r. apply trim_head.
  - intros r c. apply trim_last.
Qed.

(** ** Word counts *)

Section WordCounts.

Import Summarizer.

Lemma nonempty_rev (s : jsstring) : nonempty (rev s) = nonempty s.
Proof.
  destruct s as [|a s]; [reflexivity|]. simpl.
  destruct (rev s ++ [a]) eqn:E; [|reflexivity].
  now apply app_eq_nil in E as [_ E].
Qed.

Lemma split_go_count (sep : N -> bool) (s : jsstring) :
  forall in_run cur,
    (in_run = true -> cur = []) ->
    List.length (filter nonempty (split_go sep in_run cur s))
    = count_tokens sep (nonempty cur) s.
Proof.
  induction s as [|c s IH]; intros in_run cur Hinv;
    cbn [split_go count_tokens].
  - cbn [filter]. rewrite nonempty_rev.
    destruct (nonempty cur); reflexivity.
  - destruct (sep c).
    + destruct in_run.
      * rewrite (Hinv eq_refl). cbn [nonempty]. now apply IH.
      * cbn [filter]. rewrite nonempty_rev.
        destruct (nonempty cur); cbn [List.length];
          now rewrite (IH true []).
    + now rewrite (IH false (c :: cur)).
Qed.

Lemma countWords_count (s : jsstring) :
  countWords s = count_tokens is_space false s.
Proof.
  unfold countWords, split_runs. now rewrite split_go_count.
Qed.

Lemma count_tokens_inword (sep : N -> bool) (s : jsstring) :
  1 <= count_tokens sep true s.
Proof.
  induction s as [|c s IH]; simpl; [lia|]. destruct (sep c); lia.
Qed.

Lemma count_tokens_join (sep : N -> bool) (a b : jsstring) (w : N)
    (inword : bool) :
  sep w = true ->
  count_tokens sep inword (a ++ w :: b)
  = count_tokens sep inword a + count_tokens sep false b.
Proof.
  intros Hw. revert inword. induction a as [|c a IH]; intros inword; simpl.
  - now rewrite Hw.
  - destruct (sep c); [rewrite IH; lia | apply IH].
Qed.

Lemma count_tokens_blank_tail (sep : N -> bool) (a ws : jsstring)
    (inword : bool) :
  Forall (fun c => sep c = true) ws ->
  count_tokens sep inword (a ++ ws) = count_tokens sep inword a.
Proof.
  intros Hws. revert inword. induction a as [|c a IH]; intros inword; simpl.
  - revert inword. induction Hws as [|w ws Hw _ IHw]; intros inword;
      [reflexivity|].
    simpl. rewrite Hw, (IHw false). simpl. lia.
  - destruct (sep c); now rewrite IH.
Qed.

Lemma count_tokens_blank_head (sep : N -> bool) (ws b : jsstring) :
  Forall (fun c => sep c = true) ws ->
  count_tokens sep false (ws ++ b) = count_tokens sep false b.
Proof.
  induction 1 as [|w ws Hw _ IH]; simpl; [reflexivity|]. now rewrite Hw.
Qed.

(** X1: a text counts 0 words exactly when it holds nothing but white
    space (the empty text included). *)
Theorem countWords_zero_iff_blank (text : jsstring) :
  countWords text = 0 <-> Forall (fun c => is_space c = true) text.
Proof.
  rewrite countWords_count. induction text as [|c s IH]; simpl.
  - split; [constructor | reflexivity].
  - destruct (is_space c) eqn:Hc.
    + simpl. rewrite IH. split.
      * intros H. now constructor.
      * intros H. now inversion H.
    + split.
      * pose proof (count_tokens_inword is_space s). lia.
      * intros H. inversion H; congruence.
Qed.

Lemma countWords_zero_iff_blank_witness :
  countWords [32; 9; 10; 160]%N = 0.
Proof.
  apply (proj2 (countWords_zero_iff_blank [32; 9; 10; 160]%N)).
  repeat constructor.
Defined.

(** X2: the words of two texts joined by a white-space character are the
    words of the one and the words of the other; no word is made or lost
    at the seam. *)
Theorem countWords_joined (a b : jsstring) (w : N) :
  is_space w = true ->
  countWords (a ++ w :: b) = countWords a + countWords b.
Proof.
  intros Hw. rewrite !countWords_count. now apply count_tokens_join.
Qed.

Lemma countWords_joined_witness :
  countWords (lit "one two" ++ 10%N :: lit " three  four") = 2 + 2.
Proof.
  apply (countWords_joined (lit "one two") (lit " three  four") 10).
  reflexivity.
Defined.

(** Trimming a text does not change its word count. *)
Lemma countWords_trim (text : jsstring) :
  countWords (trim text) = countWords text.
Proof.
  destruct (trim_split text) as (ws1 & ws2 & Hs & H1 & H2).
  rewrite !countWords_count. rewrite Hs at 2.
  rewrite count_tokens_blank_head by assumption.
  now rewrite count_tokens_blank_tail.
Qed.

Lemma count_tokens_floor (sep : N -> bool) (s : jsstring) (inword : bool) :
  (if inword then 1 else 0) <= count_tokens sep inword s.
Proof.
  destruct inword; [apply count_tokens_inword | lia].
Qed.

Lemma count_tokens_firstn (sep : N -> bool) (s : jsstring) :
  forall i inword,
    count_tokens sep inword (firstn i s) <= count_tokens sep inword s.
Proof.
  induction s as [|c s IH]; intros i inword.
  - now rewrite firstn_nil.
  - destruct i as [|i].
    + apply (count_tokens_floor sep (c :: s) inword).
    + simpl. destruct (sep c).
      * specialize (IH i false). lia.
      * apply IH.
Qed.

End WordCounts.

(** ** Key points *)

Section KeyPoints.

Import Summarizer.

Lemma heading_nonempty (h : jsstring) : In h headings -> h <> [].
Proof.
  unfold headings. simpl.
  intros [<-|[<-|[<-|[<-|[]]]]]; discriminate.
Qed.

(** X3: the summary that [extractKeyPoints] returns holds none of the
    heading phrases, so parsing it again returns it unchanged, without key
    points. *)
Theorem extractKeyPoints_summary_stable (text : jsstring) :
  ~ contains_heading (fst (extractKeyPoints text))
  /\ extractKeyPoints (fst (extractKeyPoints text))
     = (fst (extractKeyPoints text), None).
Proof.
  assert (~ contains_heading (fst (extractKeyPoints text))) as Hno.
  { unfold extractKeyPoints.
    destruct (match_index text) as [i|] eqn:E; cbn [fst].
    - apply match_index_Some in E as [(h0 & Hin0 & Hi & _) Hmin].
      intros (h & j & Hin & Hj & mid & post & Hskip & Hmid).
      destruct (trim_split (firstn i text)) as (ws1 & ws2 & Hp & _ & _).
      set (t := trim (firstn i text)) in *.
      assert (t = firstn j t ++ mid ++ post) as Ht
        by (rewrite <- Hskip; symmetry; apply firstn_skipn).
      assert (text = (ws1 ++ firstn j t) ++ mid
                     ++ (post ++ ws2 ++ skipn i text)) as Htext.
      { rewrite <- (firstn_skipn i text) at 1. rewrite Hp, Ht at 1.
        now rewrite <- !app_assoc. }
      assert (List.length mid = List.length h) as Hlen.
      { apply (f_equal (@List.length N)) in Hmid.
        now rewrite !length_map in Hmid. }
      assert (List.length h <> 0) as Hh.
      { pose proof (heading_nonempty h Hin). destruct h; [congruence|].
        simpl. lia. }
      assert (List.length (firstn i text) = i) as Hfi
        by (apply firstn_length_le; exact Hi).
      assert (List.length (ws1 ++ firstn j t) + List.length mid <= i) as Hk.
      { pose proof (f_equal (@List.length N) Hp) as Lp.
        pose proof (f_equal (@List.length N) Ht) as Lt.
        rewrite !length_app in Lp, Lt. rewrite length_app. lia. }
      apply (Hmin (List.length (ws1 ++ firstn j t)) h); [lia | assumption|].
      split.
      + pose proof (f_equal (@List.length N) Htext) as Ltext.
        rewrite !length_app in Ltext. rewrite length_app. lia.
      + exists mid, (post ++ ws2 ++ skipn i text). split; [|assumption].
        rewrite Htext at 1. now rewrite skipn_app, skipn_all, Nat.sub_diag.
    - now apply no_match_no_heading.
  }
  split; [exact Hno|].
  unfold extractKeyPoints at 1.
  now rewrite (match_index_None _ Hno).
Qed.

(** X4: when key points are returned, there is at least one, and every one
    of them is trimmed and starts with a character that is no dash, bullet,
    digit, dot or white space: what an item has of these at its start is
    stripped with the marker. *)
Theorem keyPoints_well_formed (text : jsstring) (kps : list jsstring) :
  snd (extractKeyPoints text) = Some kps ->
  kps <> []
  /\ forall p, In p kps ->
       (exists c r, p = c :: r /\ marker_char c = false)
       /\ trim p = p.
Proof.
  unfold extractKeyPoints.
  destruct (match_index text) as [i|]; cbn [snd]; [|discriminate].
  destruct (filter nonempty _) as [|p0 ps] eqn:E; [discriminate|].
  intros [= <-]. split; [discriminate|].
  intros p Hin. rewrite <- E in Hin.
  apply filter_In in Hin as [Hin Hne].
  apply in_map_iff in Hin as (line & <- & _).
  unfold strip_marker in *.
  destruct (dropWhile marker_char line) as [|c r] eqn:Hd; [discriminate Hne|].
  apply dropWhile_head in Hd as Hc.
  assert (is_space c = false) as Hsp.
  { unfold marker_char in Hc. now apply orb_false_iff in Hc as [_ Hc]. }
  destruct (trim_cons c r Hsp) as [r' Hr]. split.
  - exists c, r'. now split.
  - apply trim_idempotent.
Qed.

Lemma keyPoints_well_formed_witness :
  [lit "apples"; lit "Point B"] <> []
  /\ forall p, In p [lit "apples"; lit "Point B"] ->
       (exists c r, p = c :: r /\ marker_char c = false)
       /\ trim p = p.
Proof.
  apply (keyPoints_well_formed
           (lit "S." ++ [10%N] ++ lit "Key points:" ++ [10%N]
            ++ lit "- 3 apples" ++ [10%N] ++ lit "2. Point B")).
  vm_compute. reflexivity.
Defined.

(** X5: the summary never counts more words than the answer it was taken
    from. *)
Theorem summary_words_bounded (text : jsstring) :
  countWords (fst (extractKeyPoints text)) <= countWords text.
Proof.
  unfold extractKeyPoints. destruct (match_index text) as [i|]; cbn [fst].
  - rewrite countWords_trim, !countWords_count. apply count_tokens_firstn.
  - lia.
Qed.

Lemma split_go_no_separator (sep : N -> bool) (s : jsstring) :
  forall cur,
    Forall (fun c => sep c = false) s ->
    split_go sep false cur s = [rev cur ++ s].
Proof.
  induction s as [|c s IH]; intros cur Hs; cbn [split_go].
  - now rewrite app_nil_r.
  - inversion Hs as [|? ? Hc Hrest]; subst. rewrite Hc.
    rewrite (IH (c :: cur) Hrest). cbn [rev]. now rewrite <- app_assoc.
Qed.

(** X25: items that stand on the line of the heading itself are lost: when
    no line feed follows the leftmost heading phrase, no key points are
    returned, whatever follows the heading on its line. *)
Theorem keyPoints_on_heading_line_dropped (text : jsstring) (i : nat) :
  first_heading_at text i ->
  Forall (fun c => is_newline c = false) (skipn i text) ->
  extractKeyPoints text = (trim (firstn i text), None).
Proof.
  intros Hfirst Hline. unfold extractKeyPoints.
  apply match_index_Some in Hfirst. rewrite Hfirst.
  unfold section_lines, split_runs.
  now rewrite (split_go_no_separator is_newline (skipn i text) [] Hline).
Qed.

Lemma keyPoints_on_heading_line_dropped_witness :
  extractKeyPoints (lit "Short summary. Key points: - first - second")
  = (lit "Short summary.", None).
Proof.
  apply (keyPoints_on_heading_line_dropped
           (lit "Short summary. Key points: - first - second") 15).
  - apply match_index_Some. vm_compute. reflexivity.
  - vm_compute. repeat constructor.
Defined.

End KeyPoints.

(** ** Runs of the summarizer *)

Section SummarizerRuns.

Import Summarizer.
Local Open Scope Z_scope.

Variable ai : nat -> jsstring -> ai_outcome.

Lemma generate_calls_app (a b : list event) :
  generate_calls (a ++ b) = (generate_calls a + generate_calls b)%nat.
Proof.
  induction a as [|[p|e|ms|] a IH]; simpl; lia.
Qed.

Lemma waits_app (a b : list event) : waits (a ++ b) = waits a ++ waits b.
Proof.
  induction a as [|[p|e|ms|] a IH]; simpl; congruence.
Qed.

(** Whatever the service does, the loop ends, after at most as many calls
    as retries are left. *)
Lemma retry_loop_bounded (prompt : jsstring) (owc : nat) :
  forall fuel st,
    (Z.to_nat (maxRetries - retries st) < fuel)%nat ->
    exists ex,
      retry_loop ai fuel prompt owc st = Some ex
      /\ (generate_calls (exit_trace ex)
          <= generate_calls (trace st) + Z.to_nat (maxRetries - retries st))%nat
      /\ match ex with
         | Returned r _ => originalWordCount r = owc
         | _ => True
         end.
Proof.
  unfold maxRetries.
  induction fuel as [|fuel IH]; intros st Hfuel; [lia|].
  cbn [retry_loop]. unfold maxRetries.
  destruct (Z.ltb_spec (retries st) 3) as [Hlt|Hge].
  - destruct (ai (calls st) prompt) as [text|[|m]].
    + destruct (extractKeyPoints (or_else text [])) as [s kps].
      eexists. split; [reflexivity|]. cbn [exit_trace originalWordCount].
      split; [|reflexivity]. rewrite generate_calls_app. cbn [generate_calls]. lia.
    + eexists. split; [reflexivity|]. cbn [exit_trace].
      split; [|exact I]. rewrite generate_calls_app. cbn [generate_calls]. lia.
    + edestruct (IH {| retries := retries st + 1;
                       error := Some (ThrownError m);
                       calls := S (calls st);
                       trace := (trace st ++ [EvGenerate prompt])
                                ++ [EvLogError (ThrownError m);
                                    EvSleep (2 ^ (retries st + 1) * 1000)] |})
        as (ex & Hrun & Hcalls & Hres).
      * cbn [retries]. lia.
      * exists ex. split; [exact Hrun|]. split; [|exact Hres].
        cbn [retries trace] in Hcalls.
        rewrite !generate_calls_app in Hcalls. cbn [generate_calls] in Hcalls.
        lia.
  - eexists. split; [reflexivity|]. cbn [exit_trace]. split; [lia | exact I].
Qed.

(** X6: whatever the service does, [summarize] resolves after at most 3
    calls of it, and its result carries the word count of the input. *)
Theorem summarize_resolves_within_three_calls (fuel : nat) (cached : bool)
    (apiKey : option jsstring) (content : jsstring)
    (options : SummarizerOptions) :
  (3 < fuel)%nat ->
  exists r tr,
    summarize ai fuel cached apiKey content options = Some (r, tr)
    /\ (generate_calls tr <= 3)%nat
    /\ originalWordCount r = countWords content.
Proof.
  intros Hfuel. unfold summarize.
  destruct (cached || truthy apiKey).
  - destruct (retry_loop_bounded (generatePrompt content options)
                (countWords content) fuel
                {| retries := 0; error := None; calls := 0; trace := [] |})
      as (ex & -> & Hcalls & Hres).
    + cbn [retries]. unfold maxRetries. simpl. lia.
    + cbn [retries trace] in Hcalls. unfold maxRetries in Hcalls.
      simpl in Hcalls.
      destruct ex as [r tr | tr | st]; cbn [exit_trace] in Hcalls;
        do 2 eexists; (split; [reflexivity|]).
      * split; assumption.
      * rewrite generate_calls_app. simpl. split; [lia | reflexivity].
      * rewrite generate_calls_app. simpl. split; [lia | reflexivity].
  - do 2 eexists. split; [reflexivity|]. simpl. split; [lia | reflexivity].
Qed.

(** When [k] calls throw an error and the next one answers, the loop
    returns what is parsed from the answer. *)
Lemma retry_loop_answered_after (prompt : jsstring) (owc : nat)
    (text : option jsstring) :
  forall k fuel st,
    (forall j, (j < k)%nat ->
               exists m, ai (calls st + j) prompt = AiRejected (ThrownError m)) ->
    ai (calls st + k) prompt = AiResolved text ->
    retries st + Z.of_nat k < maxRetries ->
    (k < fuel)%nat ->
    exists tr,
      retry_loop ai fuel prompt owc st
      = Some (Returned
                {| summary := fst (extractKeyPoints (or_else text []));
                   keyPoints := snd (extractKeyPoints (or_else text []));
                   originalWordCount := owc;
                   summaryWordCount :=
                     countWords (fst (extractKeyPoints (or_else text []))) |}
                tr)
      /\ generate_calls tr = (generate_calls (trace st) + k + 1)%nat
      /\ waits tr
         = waits (trace st)
           ++ map (fun j => 2 ^ (retries st + Z.of_nat j) * 1000) (seq 1 k).
Proof.
  induction k as [|k IH]; intros fuel st Hrej Hres Hlt Hfuel;
    (destruct fuel as [|fuel]; [lia|]); cbn [retry_loop].
  - assert ((retries st <? maxRetries) = true) as -> by (apply Z.ltb_lt; lia).
    rewrite Nat.add_0_r in Hres. rewrite Hres.
    destruct (extractKeyPoints (or_else text [])) as [s kps]. cbn [fst snd].
    eexists. split; [reflexivity|]. split.
    + rewrite generate_calls_app. cbn [generate_calls]. lia.
    + rewrite waits_app. cbn [waits seq map]. reflexivity.
  - assert ((retries st <? maxRetries) = true) as -> by (apply Z.ltb_lt; lia).
    destruct (Hrej 0%nat) as [m Hm]; [lia|].
    rewrite Nat.add_0_r in Hm. rewrite Hm.
    edestruct (IH fuel
                 {| retries := retries st + 1;
                    error := Some (ThrownError m);
                    calls := S (calls st);
                    trace := (trace st ++ [EvGenerate prompt])
                             ++ [EvLogError (ThrownError m);
                                 EvSleep (2 ^ (retries st + 1) * 1000)] |})
      as (tr & Hrun & Hcalls & Hwaits).
    + intros j Hj. cbn [calls].
      replace (S (calls st) + j)%nat with (calls st + S j)%nat by lia.
      apply Hrej. lia.
    + cbn [calls].
      replace (S (calls st) + k)%nat with (calls st + S k)%nat by lia.
      exact Hres.
    + cbn [retries]. lia.
    + lia.
    + exists tr. split; [exact Hrun|]. cbn [retries trace] in *. split.
      * rewrite Hcalls, !generate_calls_app. cbn [generate_calls]. lia.
      * rewrite Hwaits, !waits_app. cbn [waits app].
        rewrite app_nil_r, <- app_assoc. f_equal.
        cbn [seq map app]. f_equal.
        rewrite <- (seq_shift k 1), map_map. apply map_ext. intros j.
        replace (retries st + Z.of_nat (S j))
          with (retries st + 1 + Z.of_nat j) by lia.
        reflexivity.
Qed.

(** X7: when the client can be made, [k < 3] calls throw an error and the
    next call answers, the result is parsed from the answer: summary and
    key points come from [extractKeyPoints], the summary word count counts
    the summary alone (not the key points), and the run has made [k + 1]
    calls and waited 2, 4, ... seconds between them. *)
Theorem summarize_answered (fuel : nat) (cached : bool)
    (apiKey : option jsstring) (content : jsstring)
    (options : SummarizerOptions) (k : nat) (text : option jsstring) :
  cached || truthy apiKey = true ->
  (forall j, (j < k)%nat ->
     exists m, ai j (generatePrompt content options)
               = AiRejected (ThrownError m)) ->
  ai k (generatePrompt content options) = AiResolved text ->
  (k < 3)%nat ->
  (k < fuel)%nat ->
  exists tr,
    summarize ai fuel cached apiKey content options
    = Some ({| summary := fst (extractKeyPoints (or_else text []));
               keyPoints := snd (extractKeyPoints (or_else text []));
               originalWordCount := countWords content;
               summaryWordCount :=
                 countWords (fst (extractKeyPoints (or_else text []))) |},
            tr)
    /\ generate_calls tr = S k
    /\ waits tr = map (fun j => 2 ^ Z.of_nat j * 1000) (seq 1 k).
Proof.
  intros Hkey Hrej Hres Hk Hfuel. unfold summarize. rewrite Hkey.
  destruct (retry_loop_answered_after (generatePrompt content options)
              (countWords content) text k fuel
              {| retries := 0; error := None; calls := 0; trace := [] |})
    as (tr & -> & Hcalls & Hwaits); cbn [calls retries trace] in *;
    try assumption.
  - unfold maxRetries. lia.
  - exists tr. split; [reflexivity|]. split.
    + rewrite Hcalls. simpl. lia.
    + rewrite Hwaits. simpl. apply map_ext. intros j. reflexivity.
Qed.

End SummarizerRuns.

Section SummarizerRunsExamples.

Import Summarizer.
Local Open Scope Z_scope.

Lemma summarize_resolves_within_three_calls_witness :
  exists r tr,
    summarize answers_second 4 true None (lit "a b c")
      {| length := lit "long"; includeKeyPoints := false |} = Some (r, tr)
    /\ (generate_calls tr <= 3)%nat
    /\ originalWordCount r = countWords (lit "a b c").
Proof.
  apply (summarize_resolves_within_three_calls answers_second). lia.
Defined.

Lemma summarize_answered_witness :
  exists tr,
    summarize answers_second 4 false (Some (lit "key")) (lit "long text here")
      {| length := lit "short"; includeKeyPoints := true |}
    = Some ({| summary := lit "Paragraph one.";
               keyPoints := Some [lit "Point A"; lit "Point B"];
               originalWordCount := 3;
               summaryWordCount := 2 |}, tr)
    /\ generate_calls tr = 2%nat
    /\ waits tr = [2000].
Proof.
  apply (summarize_answered answers_second 4 false (Some (lit "key"))
           (lit "long text here")
           {| length := lit "short"; includeKeyPoints := true |} 1
           (Some sample_response)).
  - reflexivity.
  - intros j Hj. assert (j = 0%nat) as -> by lia. eexists. reflexivity.
  - reflexivity.
  - lia.
  - lia.
Defined.

(** X8: when the client can be made and every call throws an error, the
    run makes 3 calls and waits 2, 4 and 8 seconds, the last wait after
    the last call, before it returns the placeholder. *)
Theorem summarize_failing_service_cost (ai : nat -> jsstring -> ai_outcome)
    (fuel : nat) (cached : bool) (apiKey : option jsstring)
    (content : jsstring) (options : SummarizerOptions) :
  always_errors ai ->
  cached || truthy apiKey = true ->
  (3 < fuel)%nat ->
  exists tr,
    summarize ai fuel cached apiKey content options
    = Some (fallback (countWords content), tr)
    /\ generate_calls tr = 3%nat
    /\ waits tr = [2000; 4000; 8000]
    /\ exists tr', tr = tr' ++ [EvSleep 8000; EvShowError].
Proof.
  intros Hfail Hkey Hfuel. unfold summarize. rewrite Hkey.
  destruct fuel as [|[|[|[|fuel]]]]; try lia.
  set (p := generatePrompt content options).
  cbn [retry_loop retries calls trace]. unfold maxRetries.
  destruct (Hfail 0%nat p) as [m0 ->]. cbn [retry_loop retries calls trace].
  destruct (Hfail 1%nat p) as [m1 ->]. cbn [retry_loop retries calls trace].
  destruct (Hfail 2%nat p) as [m2 ->]. cbn [retry_loop retries calls trace].
  simpl Z.ltb. cbv iota.
  destruct fuel; cbn [retry_loop retries calls trace]; simpl Z.ltb; cbv iota;
    (eexists; split; [reflexivity|]; rewrite <- !app_assoc; simpl;
     repeat split; eexists (_ :: _ :: _ :: _ :: _ :: _ :: _ :: _ :: []);
     reflexivity).
Qed.

Lemma summarize_failing_service_cost_witness :
  exists tr,
    summarize (fun _ _ => AiRejected (ThrownError (lit "503"))) 4 true None
      (lit "a b") {| length := lit "medium"; includeKeyPoints := true |}
    = Some (fallback (countWords (lit "a b")), tr)
    /\ generate_calls tr = 3%nat
    /\ waits tr = [2000; 4000; 8000]
    /\ exists tr', tr = tr' ++ [EvSleep 8000; EvShowError].
Proof.
  apply summarize_failing_service_cost.
  - intros n p. eexists. reflexivity.
  - reflexivity.
  - lia.
Defined.

End SummarizerRunsExamples.

(** ** Runs of the fetcher *)

Section ScraperRuns.

Import Errors Scraper.
Local Open Scope Z_scope.

Lemma startsWith_self (p r : jsstring) : startsWith p (p ++ r) = true.
Proof.
  induction p as [|a p IH]; simpl; [reflexivity|].
  now rewrite N.eqb_refl.
Qed.

(** X9: whatever the input, the string handed to the URL parser starts
    with [http://] or [https://], and normalizing it again changes
    nothing. *)
Theorem candidate_prefixed (u : jsstring) :
  startsWith (lit "http://") (candidate u)
  || startsWith (lit "https://") (candidate u) = true
  /\ candidate (candidate u) = candidate u.
Proof.
  assert (startsWith (lit "http://") (candidate u)
          || startsWith (lit "https://") (candidate u) = true) as H.
  { unfold candidate.
    destruct (startsWith (lit "http://") u) eqn:H1;
      destruct (startsWith (lit "https://") u) eqn:H2; cbn [negb andb].
    - now rewrite H1.
    - now rewrite H1.
    - rewrite H2. apply orb_true_r.
    - rewrite (startsWith_self (lit "https://") u). apply orb_true_r. }
  split; [exact H|].
  set (c := candidate u) in *. unfold candidate.
  destruct (startsWith (lit "http://") c), (startsWith (lit "https://") c);
    cbn [negb andb]; try reflexivity. discriminate H.
Qed.

Section Platform.

Variable parse_url : jsstring -> option jsstring.
Variable page_title : jsstring -> option jsstring.
Variable page_metadata : jsstring -> list (jsstring * jsstring).
Variable net : nat -> outcome.




(** When every request is rejected until none is left, the loop ends
    without a response and keeps the last rejection. *)
Lemma retry_loop_exhausted (cfg : ScraperOptions) (target : jsstring)
    (last : request_error) :
  forall n fuel st,
    (forall j, (j < n)%nat -> exists e, net (calls st + j) = Rejected e) ->
    net (calls st + n) = Rejected last ->
    attempts st + Z.of_nat n = retries cfg ->
    (n < fuel)%nat ->
    exists st',
      retry_loop net fuel cfg target st = Some st'
      /\ response st' = None
      /\ lastError st' = Some last
      /\ trace st' = trace st ++ retry_steps target (attempts st) n
                              ++ [EvRequest target].
Proof.
  induction n as [|n IH]; intros fuel st Hrej Hlast Hle Hfuel;
    (destruct fuel as [|fuel]; [lia|]); cbn [retry_loop].
  - assert ((attempts st <=? retries cfg) = true) as ->
      by (apply Z.leb_le; lia).
    rewrite Nat.add_0_r in Hlast. rewrite Hlast.
    assert ((attempts st + 1 >? retries cfg) = true) as ->
      by (rewrite Z.gtb_ltb; apply Z.ltb_lt; lia).
    eexists. repeat (split; [reflexivity|]). reflexivity.
  - assert ((attempts st <=? retries cfg) = true) as ->
      by (apply Z.leb_le; lia).
    destruct (Hrej 0%nat) as [e He]; [lia|].
    rewrite Nat.add_0_r in He. rewrite He.
    assert ((attempts st + 1 >? retries cfg) = false) as ->
      by (rewrite Z.gtb_ltb; apply Z.ltb_ge; lia).
    edestruct (IH fuel
                 {| response := None;
                    attempts := attempts st + 1;
                    lastError := Some e;
                    calls := S (calls st);
                    trace := (trace st ++ [EvRequest target])
                             ++ [EvSleep (2 ^ (attempts st + 1) * 1000)] |})
      as (st' & Hrun & Hresp & Hle' & Htr).
    + intros j Hj. cbn [calls]. replace (S (calls st) + j)%nat
        with (calls st + S j)%nat by lia. apply Hrej. lia.
    + cbn [calls]. replace (S (calls st) + n)%nat
        with (calls st + S n)%nat by lia. exact Hlast.
    + cbn [attempts]. lia.
    + lia.
    + exists st'. cbn [attempts trace] in *.
      split; [exact Hrun|]. split; [exact Hresp|]. split; [exact Hle'|].
      rewrite Htr. cbn [retry_steps]. rewrite <- !app_assoc. reflexivity.
Qed.

(** X12: when all [r + 1] requests are rejected, the error thrown is made
    from the last rejection alone; when that one is a timeout of the HTTP
    client (code ECONNABORTED), it is the error "Request timed out", whose
    context holds the URL and the configured timeout. *)
Theorem scrapeUrl_exhausted_by_timeout (fuel : nat) (cfg : ScraperOptions)
    (u target msg : jsstring) (resp : option (Z * jsstring)) :
  parse_url (candidate u) = Some target ->
  0 <= retries cfg ->
  (forall j, (j < Z.to_nat (retries cfg))%nat -> exists e, net j = Rejected e) ->
  net (Z.to_nat (retries cfg))
  = Rejected (AxiosError msg (Some (lit "ECONNABORTED")) resp) ->
  (Z.to_nat (retries cfg) < fuel)%nat ->
  scrapeUrl parse_url page_title page_metadata net fuel cfg u
  = Some (inr (createNetworkError TIMEOUT (Some msg)
                 [(lit "url", CtxString target);
                  (lit "timeout", CtxNumber (timeout cfg))]),
          attempts_trace target (Z.to_nat (retries cfg))).
Proof.
  intros Hparse Hr Hrej Hlast Hfuel.
  unfold scrapeUrl, validateUrl. rewrite Hparse.
  destruct (retry_loop_exhausted cfg target
              (AxiosError msg (Some (lit "ECONNABORTED")) resp)
              (Z.to_nat (retries cfg)) fuel
              {| response := None; attempts := 0; lastError := None;
                 calls := 0; trace := [] |})
    as (st' & Hrun & Hresp & Hle & Htr); cbn [calls attempts trace] in *;
    try assumption; try lia.
  rewrite Hrun, Hresp, Hle. cbn [app] in Htr. now rewrite Htr.
Qed.

(** X13: with a negative retry count no request is made at all, and the
    fetch fails with "Failed to connect to the server". *)
Theorem scrapeUrl_negative_retries (fuel : nat) (cfg : ScraperOptions)
    (u target : jsstring) :
  parse_url (candidate u) = Some target ->
  retries cfg < 0 ->
  (0 < fuel)%nat ->
  scrapeUrl parse_url page_title page_metadata net fuel cfg u
  = Some (inr (createNetworkError CONNECTION_FAILED
                 (Some (lit "Failed to fetch URL after retries"))
                 [(lit "url", CtxString target)]),
          []).
Proof.
  intros Hparse Hr Hfuel. unfold scrapeUrl, validateUrl. rewrite Hparse.
  destruct fuel as [|fuel]; [lia|]. cbn [retry_loop attempts].
  assert ((0 <=? retries cfg) = false) as -> by (apply Z.leb_gt; lia).
  reflexivity.
Qed.

End Platform.



Lemma scrapeUrl_exhausted_by_timeout_witness :
  scrapeUrl example_parse_url no_title no_metadata silent_host 4
    example_config (lit "example.com")
  = Some (inr (createNetworkError TIMEOUT
                 (Some (lit "timeout of 10000ms exceeded"))
                 [(lit "url", CtxString (lit "https://example.com"));
                  (lit "timeout", CtxNumber 10000)]),
          attempts_trace (lit "https://example.com") 3).
Proof.
  apply (scrapeUrl_exhausted_by_timeout example_parse_url no_title
           no_metadata silent_host 4 example_config (lit "example.com")
           (lit "https://example.com") (lit "timeout of 10000ms exceeded")
           None).
  - reflexivity.
  - simpl. lia.
  - intros j _. eexists. reflexivity.
  - reflexivity.
  - simpl. lia.
Defined.

Lemma scrapeUrl_negative_retries_witness :
  scrapeUrl example_parse_url no_title no_metadata json_server 1
    {| timeout := 10000; retries := -1; userAgent := lit "agent" |}
    (lit "example.com")
  = Some (inr (createNetworkError CONNECTION_FAILED
                 (Some (lit "Failed to fetch URL after retries"))
                 [(lit "url", CtxString (lit "https://example.com"))]),
          []).
Proof.
  apply (scrapeUrl_negative_retries example_parse_url no_title no_metadata
           json_server 1
           {| timeout := 10000; retries := -1; userAgent := lit "agent" |}
           (lit "example.com") (lit "https://example.com")).
  - reflexivity.
  - simpl. lia.
  - lia.
Defined.

End ScraperRuns.

(** ** The title of the fetched page *)

Section PageTitle.

Import Scraper.

Lemma takeWhile_all (p : N -> bool) (s : jsstring) :
  Forall (fun c => p c = true) (takeWhile p s).
Proof.
  induction s as [|c s IH]; simpl; [constructor|].
  destruct (p c) eqn:Hc; now constructor.
Qed.



Lemma title_here_group (s g : jsstring) :
  title_here s = Some g -> Forall (fun c => not_lt c = true) g.
Proof.
  unfold title_here.
  destruct (Summarizer.matches_here (lit "<title") s); [|discriminate].
  destruct (dropWhile not_gt (skipn 6 s)) as [|gt body]; [discriminate|].
  destruct (nonempty (takeWhile not_lt body) && _); [|discriminate].
  intros [= <-]. apply takeWhile_all.
Qed.

Lemma title_match_group (s g : jsstring) :
  title_match s = Some g -> Forall (fun c => not_lt c = true) g.
Proof.
  induction s as [|c s IH]; cbn [title_match].
  - destruct (title_here []) eqn:E; [|discriminate].
    intros [= <-]. now apply (title_here_group []).
  - destruct (title_here (c :: s)) eqn:E.
    + intros [= <-]. now apply (title_here_group (c :: s)).
    + exact IH.
Qed.

(** X14: a title that [extractTitle] of the fetcher returns holds no [<]
    and is trimmed. *)
Theorem page_title_clean (html t : jsstring) :
  extractTitle html = Some t ->
  Forall (fun c => c <> 60%N) t /\ trim t = t.
Proof.
  unfold extractTitle. destruct (title_match html) as [g|] eqn:E;
    [|discriminate].
  intros [= <-]. split; [|apply trim_idempotent].
  apply title_match_group in E.
  destruct (trim_split g) as (ws1 & ws2 & Hg & _ & _).
  rewrite Hg in E. apply Forall_app in E as [_ E].
  apply Forall_app in E as [E _].
  eapply Forall_impl; [|exact E].
  intros c Hc ->. discriminate Hc.
Qed.

Lemma page_title_clean_witness :
  Forall (fun c => c <> 60%N) (lit "My page") /\ trim (lit "My page") = lit "My page".
Proof.
  apply (page_title_clean
           (lit "<html><head><TITLE lang=en> My page </TITLE></head></html>")).
  vm_compute. reflexivity.
Defined.




End PageTitle.

(** ** Boilerplate removal *)

Section Removal.

Import Extractor.

(** Induction on a document, with the property at hand for the children. *)
Lemma node_induction (P : node -> Prop) :
  (forall data, P (TextNode data)) ->
  (forall name attribs children,
      Forall P children -> P (Element name attribs children)) ->
  forall n, P n.
Proof.
  intros Htext Helem. fix IH 1. intros [data | name attribs children].
  - apply Htext.
  - apply Helem.
    exact ((fix all (l : list node) : Forall P l :=
              match l with
              | [] => Forall_nil P
              | k :: l' => Forall_cons k (IH k) (all l')
              end) children).
Qed.

Lemma collect_element (test : list head -> head -> bool) (ancs : list head)
    (here : path) (name : jsstring) (attribs : list (jsstring * jsstring))
    (children : list node) :
  collect test ancs here (Element name attribs children)
  = (if test ancs (name, attribs)
     then [(rev here, Element name attribs children)] else [])
    ++ collect_children test ((name, attribs) :: ancs) here 0 children.
Proof.
  cbn [collect]. f_equal. generalize 0.
  induction children as [|k l IH]; intros i; [reflexivity|].
  cbn [collect_children]. f_equal. apply IH.
Qed.

Lemma collect_free (test : list head -> head -> bool) (n : node) :
  forall ancs here,
    collect test ancs here n = [] <-> free_of test ancs n = true.
Proof.
  induction n as [data | name attribs children IH] using node_induction;
    intros ancs here.
  - split; reflexivity.
  - rewrite collect_element. cbn [free_of].
    assert (forall i,
              collect_children test ((name, attribs) :: ancs) here i children
              = [] <->
              forallb (free_of test ((name, attribs) :: ancs)) children = true)
      as Hkids.
    { induction IH as [|k l Hk _ IHl]; intros i; cbn [collect_children forallb].
      - split; reflexivity.
      - rewrite andb_true_iff, <- (Hk _ (i :: here)), <- (IHl (S i)).
        split.
        + intros H. now apply app_eq_nil in H.
        + intros [-> ->]. reflexivity. }
    rewrite andb_true_iff, negb_true_iff, <- (Hkids 0).
    destruct (test ancs (name, attribs)); split.
    + discriminate.
    + intros [H _]. discriminate H.
    + intros H. now split.
    + now intros [_ ->].
Qed.








(** ** Main content *)

Lemma content_scan_single (sels : list selector) (doc : node)
    (sel : selection) :
  content_scan sels doc = Some sel -> exists e, sel = [e].
Proof.
  induction sels as [|s rest IH]; cbn [content_scan]; [discriminate|].
  destruct (select [s] doc) as [|e l]; cbn [first firstn]; [exact IH|].
  destruct (Nat.ltb 200 _); [|exact IH].
  intros [= <-]. now exists e.
Qed.

(** X17: the main content is one element, or else the body selection; so
    it is never empty in a document that has a body. *)
Theorem findMainContent_found (doc : node) :
  ((exists e, findMainContent doc = [e])
   \/ findMainContent doc = select [[tag "body"]] doc)
  /\ (select [[tag "body"]] doc <> [] -> findMainContent doc <> []).
Proof.
  assert ((exists e, findMainContent doc = [e])
          \/ findMainContent doc = select [[tag "body"]] doc) as H.
  { unfold findMainContent.
    destruct (content_scan contentSelectors doc) as [sel|] eqn:E.
    - left. now apply (content_scan_single contentSelectors doc).
    - unfold density_fallback.
      destruct (sort (paragraphContainers doc)) as [|best l].
      + now right.
      + left. now exists (element best). }
  split; [exact H|].
  intros Hbody. destruct H as [[e ->] | ->]; [discriminate | exact Hbody].
Qed.

Lemma findMainContent_found_witness :
  findMainContent empty_heading_doc <> [].
Proof.
  apply (proj2 (findMainContent_found empty_heading_doc)).
  vm_compute. discriminate.
Defined.

End Removal.

(** ** White space of text nodes *)

Section Whitespace.

Import Extractor.

Lemma collapse_single_spaced (s : jsstring) :
  forall r, single_spaced r (collapse r s) = true.
Proof.
  induction s as [|c s IH]; intros r; cbn [collapse]; [reflexivity|].
  destruct (is_space c) eqn:Hc.
  - destruct r; [apply IH|].
    cbn [single_spaced]. change (is_space 32) with true. cbn.
    apply IH.
  - cbn [single_spaced]. rewrite Hc. apply IH.
Qed.

Lemma single_spaced_weaken (s : jsstring) (r : bool) :
  single_spaced r s = true -> single_spaced false s = true.
Proof.
  destruct s as [|c s]; [reflexivity|]. cbn [single_spaced].
  destruct (is_space c); [|auto].
  destruct r; [|auto].
  rewrite andb_false_r. discriminate.
Qed.

Lemma single_spaced_dropWhile (s : jsstring) :
  forall r, single_spaced r s = true ->
            single_spaced false (dropWhile is_space s) = true.
Proof.
  induction s as [|c s IH]; intros r H; [reflexivity|].
  cbn [dropWhile]. cbn [single_spaced] in H.
  destruct (is_space c) eqn:Hc.
  - apply andb_true_iff in H as [_ H]. now apply (IH true).
  - cbn [single_spaced]. now rewrite Hc.
Qed.

Lemma single_spaced_prefix (a b : jsstring) :
  forall r, single_spaced r (a ++ b) = true -> single_spaced r a = true.
Proof.
  induction a as [|c a IH]; intros r H; [reflexivity|].
  cbn [app single_spaced] in *.
  destruct (is_space c).
  - apply andb_true_iff in H as [H1 H2]. rewrite H1. now apply IH.
  - now apply IH.
Qed.

Lemma single_spaced_trim (s : jsstring) (r : bool) :
  single_spaced r s = true -> single_spaced false (trim s) = true.
Proof.
  intros H. unfold trim.
  destruct (trimEnd_split (trimStart s)) as (ws & Hs & _).
  apply (single_spaced_prefix _ ws). rewrite <- Hs.
  now apply (single_spaced_dropWhile s r).
Qed.

Lemma collapse_fixed (s : jsstring) :
  forall r, single_spaced r s = true -> collapse r s = s.
Proof.
  induction s as [|c s IH]; intros r H; [reflexivity|].
  cbn [single_spaced] in H. cbn [collapse].
  destruct (is_space c).
  - apply andb_true_iff in H as [H Hs]. apply andb_true_iff in H as [Hc Hr].
    apply N.eqb_eq in Hc. apply negb_true_iff in Hr. subst c r.
    f_equal. now apply IH.
  - f_equal. now apply IH.
Qed.

Lemma single_spaced_spaces (s : jsstring) :
  forall r c, single_spaced r s = true -> In c s -> is_space c = true ->
              c = 32%N.
Proof.
  induction s as [|a s IH]; intros r c H; [intros []|].
  intros [<- | Hin] Hc; cbn [single_spaced] in H.
  - rewrite Hc in H. apply andb_true_iff in H as [H _].
    apply andb_true_iff in H as [H _]. now apply N.eqb_eq in H.
  - destruct (is_space a).
    + apply andb_true_iff in H as [_ H]. now apply (IH true).
    + now apply (IH false).
Qed.

Lemma single_spaced_no_double (a b : jsstring) :
  forall r, single_spaced r (a ++ 32%N :: 32%N :: b) = false.
Proof.
  induction a as [|c a IH]; intros r.
  - cbn. now rewrite andb_false_r.
  - cbn [app single_spaced]. destruct (is_space c); [|apply IH].
    rewrite IH. apply andb_false_r.
Qed.

Lemma count_tokens_collapse (s : jsstring) :
  forall r inword,
    (r = true -> inword = false) ->
    Summarizer.count_tokens is_space inword (collapse r s)
    = Summarizer.count_tokens is_space inword s.
Proof.
  induction s as [|c s IH]; intros r inword Hinv; [reflexivity|].
  cbn [collapse Summarizer.count_tokens].
  destruct (is_space c) eqn:Hc.
  - destruct r.
    + rewrite (Hinv eq_refl). now rewrite (IH true false).
    + cbn [Summarizer.count_tokens]. change (is_space 32) with true.
      cbv iota. now rewrite (IH true false).
  - cbn [Summarizer.count_tokens]. rewrite Hc. apply IH. discriminate.
Qed.

(** Normalizing what is normalized already changes nothing. *)
Lemma normalizeWhitespace_fixed (s : jsstring) :
  normalizeWhitespace (normalizeWhitespace s) = normalizeWhitespace s.
Proof.
  unfold normalizeWhitespace at 1.
  rewrite (collapse_fixed (normalizeWhitespace s) false).
  - apply trim_idempotent.
  - apply (single_spaced_trim (collapse false s) false).
    apply collapse_single_spaced.
Qed.

(** X18: the text that [cleanContent] stores in a text node is trimmed,
    holds white space only as single spaces (U+0020) between words, has
    the words of the text it was made from, and is left as it is when
    normalized again. *)
Theorem normalizeWhitespace_normal (s : jsstring) :
  let t := normalizeWhitespace s in
  normalizeWhitespace t = t
  /\ trim t = t
  /\ (forall c, In c t -> is_space c = true -> c = 32%N)
  /\ (forall a b, t <> a ++ 32%N :: 32%N :: b)
  /\ Summarizer.countWords t = Summarizer.countWords s.
Proof.
  intros t.
  assert (single_spaced false t = true) as Hss.
  { apply (single_spaced_trim (collapse false s) false).
    apply collapse_single_spaced. }
  assert (trim t = t) as Htrim by apply trim_idempotent.
  split; [|split; [exact Htrim | split; [|split]]].
  - apply normalizeWhitespace_fixed.
  - intros c. now apply (single_spaced_spaces t false).
  - intros a b E. rewrite E in Hss.
    now rewrite single_spaced_no_double in Hss.
  - unfold t, normalizeWhitespace.
    rewrite countWords_trim, !countWords_count.
    now apply count_tokens_collapse.
Qed.

Lemma normalizeWhitespace_normal_witness :
  Summarizer.countWords (normalizeWhitespace (lit "  one   two "))
  = Summarizer.countWords (lit "  one   two ")
  /\ forall c, In c (normalizeWhitespace (lit "  one   two ")) ->
               is_space c = true -> c = 32%N.
Proof.
  destruct (normalizeWhitespace_normal (lit "  one   two "))
    as (_ & _ & Hsp & _ & Hcount).
  split; [exact Hcount | exact Hsp].
Defined.

End Whitespace.

(** ** The title of the extracted content *)

Section ResolvedTitle.

Import Extractor.

Lemma title_scan_trimmed (sels : list selector) (doc : node) (t : jsstring) :
  title_scan sels doc = Some t -> trim t = t.
Proof.
  induction sels as [|s rest IH]; cbn [title_scan]; [discriminate|].
  destruct (first (select [s] doc)); [exact IH|].
  intros [= <-]. apply trim_idempotent.
Qed.

(** X19: the title of the extracted content is either a trimmed, non-empty
    text of the document or what the host name of the URL gives. *)
Theorem resolveTitle_source (hostname : jsstring -> option jsstring)
    (doc : node) (url t : jsstring) :
  resolveTitle hostname doc url = Some t ->
  (t <> [] /\ trim t = t /\ extractTitle doc = Some t)
  \/ hostname url = Some t.
Proof.
  unfold resolveTitle.
  destruct (extractTitle doc) as [x|] eqn:E; cbn [truthy]; [|now right].
  destruct (nonempty x) eqn:Hx; [|now right].
  intros [= <-]. left. split; [now destruct x|]. split; [|reflexivity].
  unfold extractTitle in E.
  destruct (title_scan titleSelectors doc) as [y|] eqn:Hs.
  - injection E as <-. now apply (title_scan_trimmed titleSelectors doc).
  - destruct (nonempty (trim _)); [|discriminate].
    injection E as <-. apply trim_idempotent.
Qed.

Lemma resolveTitle_source_witness :
  (lit "Story" <> [] /\ trim (lit "Story") = lit "Story"
   /\ extractTitle article_heading_doc = Some (lit "Story"))
  \/ example_host (lit "https://example.com/a") = Some (lit "Story").
Proof.
  apply (resolveTitle_source example_host article_heading_doc
           (lit "https://example.com/a")).
  vm_compute. reflexivity.
Defined.

End ResolvedTitle.

(** ** The name of the output file *)

Section FileName.

Import Main.




End FileName.

(** ** The document *)

Section Document.

Import Converter.

Variable toLocaleDateString : jsstring -> jsstring.

(** X21: the document is a header made from the metadata and the clock,
    followed by the summary as it is; so with the same metadata and clock
    two summaries give the same document only when they are the same. *)
Theorem formatOutput_keeps_summary (now : jsstring) (metadata : Metadata)
    (m1 m2 : jsstring) :
  formatOutput toLocaleDateString now m1 metadata
  = formatOutput toLocaleDateString now [] metadata ++ m1
  /\ (formatOutput toLocaleDateString now m1 metadata
      = formatOutput toLocaleDateString now m2 metadata -> m1 = m2).
Proof.
  assert (forall m, formatOutput toLocaleDateString now m metadata
                    = formatOutput toLocaleDateString now [] metadata ++ m)
    as Hsplit.
  { intros m. unfold formatOutput. rewrite app_nil_r.
    now rewrite <- !app_assoc. }
  split; [apply Hsplit|].
  rewrite (Hsplit m1), (Hsplit m2). apply app_inv_head.
Qed.

End Document.

Lemma formatOutput_keeps_summary_witness :
  let md := {| Converter.title := Some (lit "T");
               Converter.url := None;
               Converter.date := Some (lit "2024-05-01") |} in
  Converter.formatOutput (firstn 10) (lit "2024-05-02") (lit "Summary text.") md
  = Converter.formatOutput (firstn 10) (lit "2024-05-02") [] md
    ++ lit "Summary text.".
Proof.
  apply (proj1 (formatOutput_keeps_summary (firstn 10) (lit "2024-05-02")
                  {| Converter.title := Some (lit "T");
                     Converter.url := None;
                     Converter.date := Some (lit "2024-05-01") |}
                  (lit "Summary text.") [])).
Defined.

(** ** Cleaning the content *)

Section Cleaning.

Import Extractor.

Variable parse : jsstring -> list node.

Lemma tag_test (t : string) (ancs : list head) (name : jsstring)
    (attribs : list (jsstring * jsstring)) :
  matches_any [[tag t]] ancs (name, attribs) = Js.eqb (lit t) name.
Proof.
  unfold matches_any, matches_selector, matches_compound. cbn.
  now rewrite !andb_true_r, orb_false_r.
Qed.

Lemma drop_nodes_tag_free (t : string) (n : node) :
  forall ancs k,
    In k (drop_nodes (is_tag t) n) ->
    free_of (matches_any [[tag t]]) ancs k = true.
Proof.
  induction n as [data | name attribs children IH] using node_induction;
    intros ancs k; cbn [drop_nodes].
  - intros [<- | []]. reflexivity.
  - cbn [is_tag]. destruct (Js.eqb (lit t) name) eqn:Ht; [intros []|].
    intros [<- | []]. cbn [free_of]. rewrite tag_test, Ht. cbn [negb andb].
    apply forallb_forall. intros c Hc.
    apply in_flat_map in Hc as (c0 & Hc0 & Hc).
    rewrite Forall_forall in IH. now apply (IH c0 Hc0).
Qed.

Lemma normalize_texts_free (test : list head -> head -> bool) (n : node) :
  forall ancs,
    free_of test ancs (normalize_texts n) = free_of test ancs n.
Proof.
  induction n as [data | name attribs children IH] using node_induction;
    intros ancs; [reflexivity|].
  cbn [normalize_texts free_of]. f_equal.
  induction IH as [|c l Hc _ IHl]; [reflexivity|].
  cbn [map forallb]. now rewrite Hc, IHl.
Qed.

Lemma normalize_below_free (test : list head -> head -> bool) (k : node)
    (ancs : list head) :
  free_of test ancs (normalize_below k) = free_of test ancs k.
Proof.
  destruct k; [reflexivity | apply normalize_texts_free].
Qed.

(** X22: with the default handling of images and links (images not
    included, links preserved), no [img] element is left below the content
    element. *)
Theorem cleanContent_drops_images (options : ExtractorOptions)
    (content k : node) (ancs : list head) (here : path) :
  includeImages options = false ->
  preserveLinks options = true ->
  In k (children_of (cleanContent parse options content)) ->
  collect (matches_any [[tag "img"]]) ancs here k = [].
Proof.
  intros Himg Hlinks Hin. apply collect_free.
  destruct content as [data | name attribs children]; [destruct Hin|].
  cbn [cleanContent children_of] in Hin. rewrite Himg, Hlinks in Hin.
  apply in_map_iff in Hin as (k0 & <- & Hk0).
  rewrite normalize_below_free.
  apply in_flat_map in Hk0 as (c & _ & Hk0).
  now apply (drop_nodes_tag_free "img" c).
Qed.

Lemma normalize_texts_normal (n : node) :
  Forall (fun d => normalizeWhitespace d = d) (texts (normalize_texts n)).
Proof.
  induction n as [data | name attribs children IH] using node_induction.
  - cbn. constructor; [|constructor].
    apply normalizeWhitespace_fixed.
  - cbn [normalize_texts texts].
    induction IH as [|c l Hc _ IHl]; [constructor|].
    cbn [map flat_map]. apply Forall_app. now split.
Qed.

(** X23: after [cleanContent], whatever the options, every text node
    inside an element below the content element is normalized: trimmed,
    with single spaces only. *)
Theorem cleanContent_normalizes_texts (options : ExtractorOptions)
    (content k : node) (d : jsstring) :
  In k (children_of (cleanContent parse options content)) ->
  is_element k = true ->
  In d (texts k) ->
  normalizeWhitespace d = d.
Proof.
  intros Hin Helem Hd.
  destruct content as [data | name attribs children]; [destruct Hin|].
  cbn [cleanContent children_of] in Hin.
  apply in_map_iff in Hin as (k0 & <- & _).
  destruct k0 as [data | n a c]; [discriminate Helem|].
  cbn [normalize_below] in Hd.
  pose proof (normalize_texts_normal (Element n a c)) as Hall.
  rewrite Forall_forall in Hall. now apply Hall.
Qed.

Lemma drop_nodes_text (test : node -> bool) (ds : list jsstring) :
  flat_map (drop_nodes test) (map TextNode ds) = map TextNode ds.
Proof.
  induction ds as [|d ds IH]; [reflexivity|]. cbn. now rewrite IH.
Qed.

Lemma replace_links_text (ds : list jsstring) :
  flat_map (replace_links parse) (map TextNode ds) = map TextNode ds.
Proof.
  induction ds as [|d ds IH]; [reflexivity|]. cbn. now rewrite IH.
Qed.

Lemma normalize_below_text (ds : list jsstring) :
  map normalize_below (map TextNode ds) = map TextNode ds.
Proof.
  induction ds as [|d ds IH]; [reflexivity|]. cbn. now rewrite IH.
Qed.

(** X24: text that stands directly in the content element is not touched:
    a content element that holds text nodes only comes back as it is,
    white space and all, whatever the options. *)
Theorem cleanContent_leaves_bare_text (options : ExtractorOptions)
    (name : jsstring) (attribs : list (jsstring * jsstring))
    (ds : list jsstring) :
  cleanContent parse options (Element name attribs (map TextNode ds))
  = Element name attribs (map TextNode ds).
Proof.
  cbn [cleanContent]. rewrite drop_nodes_text.
  destruct (includeImages options), (preserveLinks options);
    rewrite ?drop_nodes_text, ?replace_links_text, normalize_below_text;
    reflexivity.
Qed.

End Cleaning.

Lemma cleanContent_drops_images_witness :
  Extractor.collect (Extractor.matches_any [[Extractor.tag "img"]]) [] [0]
    (Extractor.el "div" [Extractor.el "p" [Extractor.txt "one two"]]) = [].
Proof.
  apply (cleanContent_drops_images (fun _ => []) Extractor.default_options
           Extractor.untidy_article).
  - reflexivity.
  - reflexivity.
  - vm_compute. right. left. reflexivity.
Defined.

Lemma cleanContent_normalizes_texts_witness :
  Extractor.normalizeWhitespace (lit "one two") = lit "one two".
Proof.
  apply (cleanContent_normalizes_texts (fun _ => [])
           Extractor.default_options Extractor.untidy_article
           (Extractor.el "div" [Extractor.el "p" [Extractor.txt "one two"]])).
  - vm_compute. right. left. reflexivity.
  - reflexivity.
  - vm_compute. left. reflexivity.
Defined.
